(** * elb-trust-store-exporter: the collector's scrape cycle

    A shallow embedding of package [collector] (type [Collector], [New],
    [Collect], [scrape], [collectTrustStoreMetrics]) and of the way
    [cmd.Run] constructs the collector, followed by the properties of
    one scrape cycle and of the publication of its result.

    Conventions.
    - A Go [error] is represented by its [Error()] text, the only thing
      the collector ever does with one (it formats it with [%v]).
    - A call that returns [(v, err)] returns a [result].
    - The outside world (clock, AWS API, HTTP) is an abstract state that
      every external call reads and updates; the log is a list of lines.
      Library functions and external calls are the fields of the
      interfaces [X509Names], [Library] and [Outside].
    - [float64] sample values are kept symbolic: the collector only ever
      converts an integer or takes [Duration.Seconds()].
    - The AWS SDK hands out the string and number fields of a trust
      store as pointers and the collector dereferences each of them
      unconditionally; the records below hold the pointed-to values. *)

From Stdlib Require Import ZArith List String Ascii Lia Bool DecimalString.
From Stdlib Require Strings.Byte.
From Equations Require Import Equations.
Import ListNotations.

Open Scope string_scope.
Open Scope list_scope.
Open Scope Z_scope.

(** ** Go basics *)

Definition error := string.

Inductive result (A : Type) : Type :=
| Ok (a : A)
| Err (e : error).
Arguments Ok {A} a.
Arguments Err {A} e.

Definition errors_New (text : string) : error := text.

(** [strconv.Itoa]: decimal text of an [int]. *)
Definition Itoa (i : Z) : string := NilZero.string_of_int (Z.to_int i).

(** [big.Int.String]: decimal text of an arbitrary-precision integer. *)
Definition bigInt_String (x : Z) : string := NilZero.string_of_int (Z.to_int x).

(** [big.Int.BitLen]: length of the absolute value in bits, 0 for 0. *)
Definition BitLen (x : Z) : Z :=
  if x =? 0 then 0 else Z.log2 (Z.abs x) + 1.

(** [time.Duration] is a count of nanoseconds. *)
Definition Duration := Z.

Definition inspect {A : Type} (a : A) : {b : A | a = b} := exist _ a eq_refl.

(** ** Prometheus descriptors and constant metrics *)



(** The ten descriptors [New] stores in the [Collector]; they are fixed
    at construction and never reassigned. *)
Inductive Desc : Type :=
| collectorSuccess
| certificateInfo
| certificateNotBefore
| certificateExpiry
| trustStoreInfo
| trustStoreCertificates
| trustStoreRevokedEntries
| exporterLastScrapeTimestamp
| exporterScrapeDurationSeconds
| exporterScrapeInterval.


Definition variableLabels (d : Desc) : list string :=
  match d with
  | certificateInfo =>
      ["trust_store_arn"; "serial_number"; "issuer"; "subject";
       "signature_algo"; "key_length"]
  | certificateNotBefore | certificateExpiry =>
      ["trust_store_arn"; "serial_number"; "subject"]
  | trustStoreInfo => ["trust_store_arn"; "name"; "region"]
  | trustStoreCertificates | trustStoreRevokedEntries => ["trust_store_arn"]
  | collectorSuccess | exporterLastScrapeTimestamp
  | exporterScrapeDurationSeconds | exporterScrapeInterval => []
  end.

Definition Desc_eqb (a b : Desc) : bool :=
  match a, b with
  | collectorSuccess, collectorSuccess
  | certificateInfo, certificateInfo
  | certificateNotBefore, certificateNotBefore
  | certificateExpiry, certificateExpiry
  | trustStoreInfo, trustStoreInfo
  | trustStoreCertificates, trustStoreCertificates
  | trustStoreRevokedEntries, trustStoreRevokedEntries
  | exporterLastScrapeTimestamp, exporterLastScrapeTimestamp
  | exporterScrapeDurationSeconds, exporterScrapeDurationSeconds
  | exporterScrapeInterval, exporterScrapeInterval => true
  | _, _ => false
  end.

(** A gauge value: [float64(i)] of an integer, or [d.Seconds()]. *)
Inductive float64 : Type :=
| Float64OfInt (i : Z)
| DurationSeconds (d : Duration).

Record Metric : Type := {
  desc : Desc;
  value : float64;
  labelValues : list string }.

(** [prometheus.MustNewConstMetric(desc, GaugeValue, value, labels...)].
    It panics when the number of label values differs from the
    descriptor's; [emitted_labels_match] below shows no call of the
    collector does. *)
Definition MustNewConstMetric (d : Desc) (v : float64) (labels : list string)
  : Metric :=
  {| desc := d; value := v; labelValues := labels |}.

(** The four exporter-level descriptors, and the six per-trust-store and
    per-certificate ones. *)
Definition exporterLevel (d : Desc) : bool :=
  match d with
  | exporterLastScrapeTimestamp | exporterScrapeDurationSeconds
  | exporterScrapeInterval | collectorSuccess => true
  | _ => false
  end.

Definition trustStoreLevel (d : Desc) : bool :=
  match d with
  | trustStoreInfo | trustStoreCertificates | trustStoreRevokedEntries => true
  | _ => false
  end.

Definition certificateLevel (d : Desc) : bool :=
  match d with
  | certificateInfo | certificateNotBefore | certificateExpiry => true
  | _ => false
  end.

(** ** AWS and crypto data *)

(** [types.TrustStore], the fields the collector reads. *)
Record TrustStore : Type := {
  TrustStoreArn : string;
  Name : string;
  NumberOfCaCertificates : Z;
  TotalRevokedEntries : Z }.

Record DescribeTrustStoresInput : Type := {
  TrustStoreArns : list string }.

Record DescribeTrustStoresOutput : Type := {
  TrustStores : list TrustStore }.

(** An option function passed to [config.LoadDefaultConfig]. *)
Inductive LoadOption : Type :=
| WithRegion (region : string).

(** [pem.Block]. *)
Record Block : Type := {
  Type_ : string;
  Bytes : list Byte.byte }.

Record CurveParams : Type := {
  BitSize : Z;
  CurveName : string }.

(** The dynamic type of [cert.PublicKey]. *)
Inductive PublicKey : Type :=
| rsa_PublicKey (N : Z) (E : Z)
| ecdsa_PublicKey (Curve : CurveParams) (X Y : Z)
| ed25519_PublicKey (key : list Byte.byte)
| other_PublicKey.

(** The [switch pub := cert.PublicKey.(type)] of
    [collectTrustStoreMetrics]. *)
Definition keyLength (pub : PublicKey) : result Z :=
  match pub with
  | rsa_PublicKey N _ => Ok (BitLen N)
  | ecdsa_PublicKey Curve _ _ => Ok (BitSize Curve)
  | _ => Err (errors_New "unknown public key type")
  end.

(** [time.Time]: seconds since the Unix epoch and the nanoseconds within
    the second. *)
Record Time : Type := {
  sec : Z;
  nsec : Z }.

Definition Time_Unix (t : Time) : Z := sec t.

(** The state of a [*Collector] that changes or differs between
    collectors: the published metrics and the three arguments of [New].
    (The mutex is in [Module Publisher]; the descriptors are [Desc].) *)
Record Collector : Type := {
  metrics : list Metric;
  scrapeInterval : Duration;
  region : string;
  trustStoreARNs : list string }.

Definition set_metrics (c : Collector) (ms : list Metric) : Collector :=
  {| metrics := ms;
     scrapeInterval := scrapeInterval c;
     region := region c;
     trustStoreARNs := trustStoreARNs c |}.

(** ** Library types and functions the collector calls *)

(** [pkix.Name] and [x509.SignatureAlgorithm] with their [String]
    methods. *)
Class X509Names : Type := {
  pkix_Name : Type;
  pkix_Name_String : pkix_Name -> string;
  SignatureAlgorithm : Type;
  SignatureAlgorithm_String : SignatureAlgorithm -> string }.

(** [x509.Certificate], the fields the collector reads. *)
Record Certificate `{X509Names} : Type := {
  SerialNumber : Z;
  Issuer : pkix_Name;
  Subject : pkix_Name;
  SignatureAlgorithm_ : SignatureAlgorithm;
  PublicKey_ : PublicKey;
  NotBefore : Time;
  NotAfter : Time }.

(** [pem.Decode(data)] returns the next block, or nil, and the rest of
    the input; [x509.ParseCertificate(der)] a certificate or an error. *)
Class Library `{X509Names} : Type := {
  pem_Decode : list Byte.byte -> option Block * list Byte.byte;
  x509_ParseCertificate : list Byte.byte -> result Certificate }.

(** When [pem.Decode] finds a block, the rest starts after the block's
    END line, so it is strictly shorter than the input. The loop of
    [collectTrustStoreMetrics] terminates for this reason. *)
Class PemDecodeProgress `{Library} : Prop :=
  pem_Decode_rest :
    forall data block rest,
      pem_Decode data = (Some block, rest) ->
      (List.length rest < List.length data)%nat.

(** ** The outside world *)

(** The clock, the AWS SDK and HTTP. [GetTrustStoreCaCertificatesBundle]
    returns the bundle's [Location]. The [ctx] argument of the SDK calls
    (a one-minute timeout) is part of the world: a call cancelled by it
    returns an error. *)
Class Outside : Type := {
  World : Type;
  time_Now : World -> Time * World;
  time_Since : Time -> World -> Duration * World;
  Config : Type;
  config_LoadDefaultConfig : list LoadOption -> World -> result Config * World;
  Client : Type;
  NewFromConfig : Config -> Client;
  DescribeTrustStores :
    Client -> DescribeTrustStoresInput -> World ->
    result DescribeTrustStoresOutput * World;
  GetTrustStoreCaCertificatesBundle :
    Client -> string -> World -> result string * World;
  Response : Type;
  http_Get : string -> World -> result Response * World;
  ioutil_ReadAll : Response -> World -> result (list Byte.byte) * World;
  Body_Close : Response -> World -> World }.

(** ** State passing *)

Record State `{Outside} : Type := {
  world : World;
  logged : list string }.

Definition M `{Outside} (A : Type) : Type := State -> A * State.

Definition ret `{Outside} {A : Type} (a : A) : M A := fun st => (a, st).

Definition bind `{Outside} {A B : Type} (m : M A) (k : A -> M B) : M B :=
  fun st => let (a, st') := m st in k a st'.

Notation "x <- m ;; k" := (bind m (fun x => k))
  (at level 61, m at next level, right associativity).
Notation "m ;;; k" := (bind m (fun _ => k))
  (at level 61, right associativity).

(** An external call. *)
Definition call `{Outside} {A : Type} (f : World -> A * World) : M A :=
  fun st =>
    let (a, w) := f (world st) in
    (a, {| world := w; logged := logged st |}).

Definition effect `{Outside} (f : World -> World) : M unit :=
  fun st => (tt, {| world := f (world st); logged := logged st |}).

(** [log.Println] and [log.Printf] with the line already formatted. *)
Definition log_Print `{Outside} (line : string) : M unit :=
  fun st => (tt, {| world := world st; logged := logged st ++ [line] |}).

(** ** The scrape cycle *)

Section Scrape.

Context `{Progress : PemDecodeProgress} `{Out : Outside}.

(** *** collectTrustStoreMetrics *)

(** The three appends at the end of the loop body. *)
Definition appendCertificate (ts : TrustStore) (cert : Certificate)
           (keyLength : Z) (metrics : list Metric) : list Metric :=
  let metrics :=
    metrics ++
    [MustNewConstMetric certificateInfo (Float64OfInt 1)
       [TrustStoreArn ts; bigInt_String (SerialNumber cert);
        pkix_Name_String (Issuer cert); pkix_Name_String (Subject cert);
        SignatureAlgorithm_String (SignatureAlgorithm_ cert);
        Itoa keyLength]] in
  let metrics :=
    metrics ++
    [MustNewConstMetric certificateNotBefore
       (Float64OfInt (Time_Unix (NotBefore cert)))
       [TrustStoreArn ts; bigInt_String (SerialNumber cert);
        pkix_Name_String (Subject cert)]] in
  metrics ++
  [MustNewConstMetric certificateExpiry
     (Float64OfInt (Time_Unix (NotAfter cert)))
     [TrustStoreArn ts; bigInt_String (SerialNumber cert);
      pkix_Name_String (Subject cert)]].

(** The loop [for len(pemData) > 0 { ... }]. It returns the metrics
    slice and the error the function returns from inside the loop
    ([None] when the loop ends or breaks). *)
Equations? certificateLoop (ts : TrustStore) (pemData : list Byte.byte)
  (metrics : list Metric) (st : State)
  : (list Metric * option error) * State
  by wf (List.length pemData) lt :=
  certificateLoop ts [] metrics st := ((metrics, None), st);
  certificateLoop ts (b :: data) metrics st with inspect (pem_Decode (b :: data)) => {
    | exist _ (None, _) _ := ((metrics, None), st);
    | exist _ (Some block, rest) Hdecode with String.eqb (Type_ block) "CERTIFICATE" => {
      | false := certificateLoop ts rest metrics st;
      | true with x509_ParseCertificate (Bytes block) => {
        | Err err :=
            certificateLoop ts rest metrics
              (snd (log_Print ("Error parsing certificate: " ++ err) st));
        | Ok cert with keyLength (PublicKey_ cert) => {
          | Err err := ((metrics, Some err), st);
          | Ok keyLength :=
              certificateLoop ts rest
                (appendCertificate ts cert keyLength metrics) st } } } }.
Proof.
  all: exact (pem_Decode_rest _ _ _ Hdecode).
Qed.

(** The function appends to the caller's slice through the [metrics]
    pointer, so the caller sees every append made before a return, also
    before an error return: the slice is threaded through and returned
    next to the error. The deferred [resp.Body.Close()] runs on each
    return after the HTTP call has succeeded. *)
Definition collectTrustStoreMetrics (c : Collector) (svc : Client)
           (ts : TrustStore) (metrics : list Metric)
  : M (list Metric * option error) :=
  let metrics :=
    metrics ++
    [MustNewConstMetric trustStoreInfo (Float64OfInt 1)
       [TrustStoreArn ts; Name ts; region c]] in
  let metrics :=
    metrics ++
    [MustNewConstMetric trustStoreCertificates
       (Float64OfInt (NumberOfCaCertificates ts)) [TrustStoreArn ts]] in
  let metrics :=
    metrics ++
    [MustNewConstMetric trustStoreRevokedEntries
       (Float64OfInt (TotalRevokedEntries ts)) [TrustStoreArn ts]] in
  bundle <- call (GetTrustStoreCaCertificatesBundle svc (TrustStoreArn ts)) ;;
  match bundle with
  | Err err => ret (metrics, Some err)
  | Ok Location =>
      resp <- call (http_Get Location) ;;
      match resp with
      | Err err => ret (metrics, Some err)
      | Ok resp =>
          pemData <- call (ioutil_ReadAll resp) ;;
          returned <-
            match pemData with
            | Err err => ret (metrics, Some err)
            | Ok pemData => certificateLoop ts pemData metrics
            end ;;
          effect (Body_Close resp) ;;;
          ret returned
      end
  end.

(** *** scrape *)

(** The loop [for _, ts := range result.TrustStores { ... }] with its
    two variables, [metrics] and [success]. *)
Fixpoint trustStoreLoop (c : Collector) (svc : Client)
         (trustStores : list TrustStore) (metrics : list Metric)
         (success : bool) : M (list Metric * bool) :=
  match trustStores with
  | [] => ret (metrics, success)
  | ts :: trustStores =>
      returned <- collectTrustStoreMetrics c svc ts metrics ;;
      match returned with
      | (metrics, Some err) =>
          log_Print ("Error collecting metrics for trust store "
                     ++ TrustStoreArn ts ++ ": " ++ err) ;;;
          trustStoreLoop c svc trustStores metrics false
      | (metrics, None) => trustStoreLoop c svc trustStores metrics success
      end
  end.

(** What one cycle has in its local variables when it reaches
    [c.mutex.Lock()]. *)
Record Cycle : Type := {
  now : Time;
  collected : list Metric;
  success : bool;
  scrapeDuration : Duration }.

(** [cfgOpts]: the region option is passed only when a region is
    configured; without it the SDK discovers the region itself. *)
Definition cfgOpts (c : Collector) : list LoadOption :=
  if String.eqb (region c) "" then [] else [WithRegion (region c)].

(** [input]: the ARN filter is set only when ARNs are configured. *)
Definition input (c : Collector) : DescribeTrustStoresInput :=
  {| TrustStoreArns :=
       if (0 <? Z.of_nat (List.length (trustStoreARNs c)))
       then trustStoreARNs c else [] |}.

(** [scrape] up to and including [scrapeDuration := time.Since(now)]:
    everything the cycle does before it takes the mutex. *)
Definition scrapeCollect (c : Collector) : M Cycle :=
  log_Print "Scraping metrics" ;;;
  now <- call time_Now ;;
  cfg <- call (config_LoadDefaultConfig (cfgOpts c)) ;;
  collected <-
    match cfg with
    | Err err =>
        log_Print ("Error creating AWS config: " ++ err) ;;;
        ret ([], false)
    | Ok cfg =>
        let svc := NewFromConfig cfg in
        result <- call (DescribeTrustStores svc (input c)) ;;
        match result with
        | Err err =>
            log_Print ("Error describing trust stores: " ++ err) ;;;
            ret ([], false)
        | Ok result =>
            log_Print ("Found "
                       ++ Itoa (Z.of_nat (List.length (TrustStores result)))
                       ++ " trust stores") ;;;
            trustStoreLoop c svc (TrustStores result) [] true
        end
    end ;;
  scrapeDuration <- call (time_Since now) ;;
  ret {| now := now;
         collected := fst collected;
         success := snd collected;
         scrapeDuration := scrapeDuration |}.

(** The four exporter metrics, in the order [scrape] appends them. *)
Definition exporterMetrics (c : Collector) (cy : Cycle) : list Metric :=
  [MustNewConstMetric exporterLastScrapeTimestamp
     (Float64OfInt (Time_Unix (now cy))) [];
   MustNewConstMetric exporterScrapeDurationSeconds
     (DurationSeconds (scrapeDuration cy)) [];
   MustNewConstMetric exporterScrapeInterval
     (DurationSeconds (scrapeInterval c)) [];
   if success cy
   then MustNewConstMetric collectorSuccess (Float64OfInt 1) []
   else MustNewConstMetric collectorSuccess (Float64OfInt 0) []].

(** The four appends under the mutex. *)
Definition appendExporter (c : Collector) (cy : Cycle) : list Metric :=
  let metrics := collected cy in
  let metrics :=
    metrics ++
    [MustNewConstMetric exporterLastScrapeTimestamp
       (Float64OfInt (Time_Unix (now cy))) []] in
  let metrics :=
    metrics ++
    [MustNewConstMetric exporterScrapeDurationSeconds
       (DurationSeconds (scrapeDuration cy)) []] in
  let metrics :=
    metrics ++
    [MustNewConstMetric exporterScrapeInterval
       (DurationSeconds (scrapeInterval c)) []] in
  if success cy then
    metrics ++ [MustNewConstMetric collectorSuccess (Float64OfInt 1) []]
  else
    metrics ++ [MustNewConstMetric collectorSuccess (Float64OfInt 0) []].

(** One cycle run on its own: collect, then, under the mutex, append
    the exporter metrics and assign [c.metrics]. *)
Definition scrape (c : Collector) : M Collector :=
  cy <- scrapeCollect c ;;
  ret (set_metrics c (appendExporter c cy)).

(** [New], up to the start of the background goroutine. *)
Definition New (region : string) (arns : list string) (interval : Duration)
  : M Collector :=
  scrape {| metrics := [];
            scrapeInterval := interval;
            region := region;
            trustStoreARNs := arns |}.

End Scrape.

(** ** The block sequence of a bundle *)

Section Blocks.

Context `{Progress : PemDecodeProgress}.

(** The blocks [pem.Decode] yields when it is called on the rest again
    and again, until the input is empty or no block is found. *)
Equations? pemBlocks (pemData : list Byte.byte) : list Block
  by wf (List.length pemData) lt :=
  pemBlocks [] := [];
  pemBlocks (b :: data) with inspect (pem_Decode (b :: data)) => {
    | exist _ (None, _) _ := [];
    | exist _ (Some block, rest) Hdecode := block :: pemBlocks rest }.
Proof.
  exact (pem_Decode_rest _ _ _ Hdecode).
Qed.

(** A block of the certificate type. *)
Definition isCertificateBlock (block : Block) : bool :=
  String.eqb (Type_ block) "CERTIFICATE".

End Blocks.

(** ** Vocabulary of the properties *)

Section Vocabulary.

Context `{Progress : PemDecodeProgress} `{Out : Outside}.

(** The info, certificates and revoked-entries samples of a trust store,
    as [collectTrustStoreMetrics] builds them from the enumerated record. *)
Definition trustStoreMetrics (c : Collector) (ts : TrustStore) : list Metric :=
  [MustNewConstMetric trustStoreInfo (Float64OfInt 1)
     [TrustStoreArn ts; Name ts; region c];
   MustNewConstMetric trustStoreCertificates
     (Float64OfInt (NumberOfCaCertificates ts)) [TrustStoreArn ts];
   MustNewConstMetric trustStoreRevokedEntries
     (Float64OfInt (TotalRevokedEntries ts)) [TrustStoreArn ts]].

(** The three samples of one certificate: one certificate fact. *)
Definition certificateMetrics (ts : TrustStore) (cert : Certificate)
           (keyLength : Z) : list Metric :=
  appendCertificate ts cert keyLength [].

(** The state with more lines logged. *)
Definition logging (st : State) (lines : list string) : State :=
  {| world := world st; logged := logged st ++ lines |}.

(** The Extractor in the words of the specification, over the sequence
    of blocks: a block that is not a certificate block is ignored; one
    that does not parse is reported and skipped; a key that is neither
    RSA nor ECDSA ends the extraction with an error; every other
    certificate gives one fact. The result is the facts produced (also
    those produced before an error), the error and the lines reported. *)
Fixpoint extract (ts : TrustStore) (blocks : list Block)
  : list Metric * option error * list string :=
  match blocks with
  | [] => ([], None, [])
  | block :: blocks =>
      if isCertificateBlock block then
        match x509_ParseCertificate (Bytes block) with
        | Err err =>
            let '(facts, failure, lines) := extract ts blocks in
            (facts, failure, ("Error parsing certificate: " ++ err)%string :: lines)
        | Ok cert =>
            match keyLength (PublicKey_ cert) with
            | Err err => ([], Some err, [])
            | Ok keyLength =>
                let '(facts, failure, lines) := extract ts blocks in
                (certificateMetrics ts cert keyLength ++ facts, failure, lines)
            end
        end
      else extract ts blocks
  end.

(** The bundle of a trust store as [collectTrustStoreMetrics] obtains
    it: the bundle-location call, the HTTP GET, the read of the body,
    and the deferred close of the body. *)
Definition fetchBundle (svc : Client) (ts : TrustStore) (w : World)
  : result (list Byte.byte) * World :=
  let (bundle, w) := GetTrustStoreCaCertificatesBundle svc (TrustStoreArn ts) w in
  match bundle with
  | Err err => (Err err, w)
  | Ok Location =>
      let (resp, w) := http_Get Location w in
      match resp with
      | Err err => (Err err, w)
      | Ok resp =>
          let (pemData, w) := ioutil_ReadAll resp w in
          (pemData, Body_Close resp w)
      end
  end.

(** What [scrape] does before its loop over the trust stores: the client
    and the enumerated trust stores, or nothing when configuration
    resolution or the enumeration call fails, and the state then. *)
Definition enumeration (c : Collector) (st : State)
  : option (Client * list TrustStore) * State :=
  let st := snd (log_Print "Scraping metrics" st) in
  let st := snd (call time_Now st) in
  let (cfg, st) := call (config_LoadDefaultConfig (cfgOpts c)) st in
  match cfg with
  | Err err => (None, snd (log_Print ("Error creating AWS config: " ++ err) st))
  | Ok cfg =>
      let (result, st) :=
        call (DescribeTrustStores (NewFromConfig cfg) (input c)) st in
      match result with
      | Err err =>
          (None, snd (log_Print ("Error describing trust stores: " ++ err) st))
      | Ok result =>
          (Some (NewFromConfig cfg, TrustStores result),
           snd (log_Print
                  ("Found "
                   ++ Itoa (Z.of_nat (List.length (TrustStores result)))
                   ++ " trust stores") st))
      end
  end.

(** The slice, the flag and the state of a cycle when it calls
    [time.Since]. *)
Definition collection (c : Collector) (st : State)
  : (list Metric * bool) * State :=
  match enumeration c st with
  | (None, st') => (([], false), st')
  | (Some (svc, trustStores), st') =>
      trustStoreLoop c svc trustStores [] true st'
  end.

(** A sample that carries the ARN of the trust store as its first label,
    as the six trust-store and certificate descriptors have it. *)
Definition ofTrustStore (ts : TrustStore) (m : Metric) : bool :=
  match labelValues m with
  | arn :: _ => String.eqb arn (TrustStoreArn ts)
  | [] => false
  end.

(** No sample of the trust store is in the snapshot. *)
Definition absent (ts : TrustStore) (snapshot : list Metric) : Prop :=
  forall m, In m snapshot -> ofTrustStore ts m = false.

(** The samples [collectTrustStoreMetrics] can append. *)
Definition emitted (c : Collector) (m : Metric) : Prop :=
  (exists ts, In m (trustStoreMetrics c ts)) \/
  (exists ts cert keyLength, In m (certificateMetrics ts cert keyLength)).

(** The loop's state when it reaches the trust store after [before]. *)
Definition reaching (c : Collector) (svc : Client) (before : list TrustStore)
           (st : State) : list Metric * bool * State :=
  trustStoreLoop c svc before [] true st.

(** What [collectTrustStoreMetrics] returns for each trust store of the
    loop, in order. *)
Fixpoint returnedErrors (c : Collector) (svc : Client)
         (trustStores : list TrustStore) (metrics : list Metric) (st : State)
  : list (option error) :=
  match trustStores with
  | [] => []
  | ts :: trustStores =>
      let '((metrics, err), st) := collectTrustStoreMetrics c svc ts metrics st in
      err ::
      returnedErrors c svc trustStores metrics
        (match err with
         | Some err =>
             snd (log_Print ("Error collecting metrics for trust store "
                             ++ TrustStoreArn ts ++ ": " ++ err) st)
         | None => st
         end)
  end.

Definition isNil (err : option error) : bool :=
  match err with
  | None => true
  | Some _ => false
  end.

(** The key_length labels of the certificate_info samples of a list. *)
Definition keyLengthLabels (facts : list Metric) : list (option string) :=
  map (fun m => nth_error (labelValues m) 5)
      (filter (fun m => Desc_eqb (desc m) certificateInfo) facts).

(** The value of the collector_success sample of a snapshot. *)
Definition successValue (snapshot : list Metric) : list float64 :=
  map value (filter (fun m => Desc_eqb (desc m) collectorSuccess) snapshot).

End Vocabulary.

(** ** Collect and scrape as concurrent goroutines *)

(** [Collect] runs on the goroutines of the metrics handler, [scrape] on
    the goroutine of [New] and then of [backgroundScrape], one call at a
    time. They share [c.metrics] and [c.mutex]; every other field of the
    collector is only read after [New]. A state of the system holds the
    program point of each call, and a step is one statement of one
    goroutine. A [scrape] builds its slice from nil, so its appends never
    write into the array of a slice published before. *)
Module Publisher.

(** The goroutines: the one running [scrape], and the one of the i-th
    call of [Collect]. The mutex is modelled with its holder; a Go mutex
    does not record it, and no step reads it except to test whether the
    mutex is free. *)
Inductive Goroutine : Type :=
| ScrapeGoroutine
| CollectGoroutine (i : nat).

(** Program points of a [Collect] call. *)
Inductive CollectPC : Type :=
| CollectStart
| CollectLocked
| CollectRanging (rest sent : list Metric)
| CollectReturned (sent : list Metric).

Section Goroutines.

Context `{Progress : PemDecodeProgress} `{Out : Outside}.

(** Program points of [scrape]. *)
Inductive ScrapePC : Type :=
| ScrapeIdle
| ScrapeCollected (cy : Cycle)
| ScrapeAppending (cy : Cycle) (metrics pending : list Metric)
| ScrapeAssigned.

Record System : Type := {
  outside : State;
  collector : Collector;
  mutex : option Goroutine;
  scraper : ScrapePC;
  collects : nat -> CollectPC;
  (** Every value [c.metrics] has had, the newest first. *)
  published : list (list Metric) }.

Definition set_collect (f : nat -> CollectPC) (i : nat) (pc : CollectPC)
  : nat -> CollectPC :=
  fun j => if Nat.eqb j i then pc else f j.

(** The next statement of [scrape]; nothing when it waits for the
    mutex. *)
Definition scrapeStep (s : System) : option System :=
  match scraper s with
  | ScrapeIdle =>
      (* the body before c.mutex.Lock() *)
      let (cy, st') := scrapeCollect (collector s) (outside s) in
      Some {| outside := st';
              collector := collector s;
              mutex := mutex s;
              scraper := ScrapeCollected cy;
              collects := collects s;
              published := published s |}
  | ScrapeCollected cy =>
      (* c.mutex.Lock() *)
      match mutex s with
      | Some _ => None
      | None =>
          Some {| outside := outside s;
                  collector := collector s;
                  mutex := Some ScrapeGoroutine;
                  scraper :=
                    ScrapeAppending cy (collected cy)
                                    (exporterMetrics (collector s) cy);
                  collects := collects s;
                  published := published s |}
      end
  | ScrapeAppending cy metrics (m :: pending) =>
      (* one metrics = append(metrics, ...) *)
      Some {| outside := outside s;
              collector := collector s;
              mutex := mutex s;
              scraper := ScrapeAppending cy (metrics ++ [m]) pending;
              collects := collects s;
              published := published s |}
  | ScrapeAppending cy metrics [] =>
      (* c.metrics = metrics *)
      Some {| outside := outside s;
              collector := set_metrics (collector s) metrics;
              mutex := mutex s;
              scraper := ScrapeAssigned;
              collects := collects s;
              published := metrics :: published s |}
  | ScrapeAssigned =>
      (* the deferred c.mutex.Unlock() *)
      Some {| outside := outside s;
              collector := collector s;
              mutex := None;
              scraper := ScrapeIdle;
              collects := collects s;
              published := published s |}
  end.

(** The next statement of the i-th [Collect]; nothing when it waits for
    the mutex or has returned. *)
Definition collectStep (i : nat) (s : System) : option System :=
  match collects s i with
  | CollectStart =>
      (* c.mutex.Lock() *)
      match mutex s with
      | Some _ => None
      | None =>
          Some {| outside := outside s;
                  collector := collector s;
                  mutex := Some (CollectGoroutine i);
                  scraper := scraper s;
                  collects := set_collect (collects s) i CollectLocked;
                  published := published s |}
      end
  | CollectLocked =>
      (* the range expression c.metrics is evaluated, once *)
      Some {| outside := outside s;
              collector := collector s;
              mutex := mutex s;
              scraper := scraper s;
              collects :=
                set_collect (collects s) i
                            (CollectRanging (metrics (collector s)) []);
              published := published s |}
  | CollectRanging (m :: rest) sent =>
      (* ch <- m *)
      Some {| outside := outside s;
              collector := collector s;
              mutex := mutex s;
              scraper := scraper s;
              collects :=
                set_collect (collects s) i (CollectRanging rest (sent ++ [m]));
              published := published s |}
  | CollectRanging [] sent =>
      (* the loop is over; the deferred c.mutex.Unlock() *)
      Some {| outside := outside s;
              collector := collector s;
              mutex := None;
              scraper := scraper s;
              collects := set_collect (collects s) i (CollectReturned sent);
              published := published s |}
  | CollectReturned _ => None
  end.

Definition perform (g : Goroutine) (s : System) : option System :=
  match g with
  | ScrapeGoroutine => scrapeStep s
  | CollectGoroutine i => collectStep i s
  end.

(** One step of the system: one goroutine executes its next statement. *)
Definition step (s s' : System) : Prop :=
  exists g, perform g s = Some s'.

(** A schedule executed from a state; nothing when a goroutine of the
    schedule cannot move. *)
Fixpoint run (schedule : list Goroutine) (s : System) : option System :=
  match schedule with
  | [] => Some s
  | g :: schedule =>
      match perform g s with
      | Some s' => run schedule s'
      | None => None
      end
  end.

(** No call is running. *)
Definition idle (c : Collector) (st : State) : System :=
  {| outside := st;
     collector := c;
     mutex := None;
     scraper := ScrapeIdle;
     collects := fun _ => CollectStart;
     published := [metrics c] |}.

(** The system once [New] has made its first [scrape] and returned [c]. *)
Definition initial (region : string) (arns : list string)
           (interval : Duration) (st : State) : System :=
  idle (fst (New region arns interval st)) (snd (New region arns interval st)).

Inductive reachable (s0 : System) : System -> Prop :=
| reachable_start : reachable s0 s0
| reachable_step s s' : reachable s0 s -> step s s' -> reachable s0 s'.

(** The states in which a goroutine is between its [Lock] and its
    [Unlock]. *)
Definition scrapeHolds (pc : ScrapePC) : bool :=
  match pc with
  | ScrapeAppending _ _ _ | ScrapeAssigned => true
  | ScrapeIdle | ScrapeCollected _ => false
  end.

Definition collectHolds (pc : CollectPC) : bool :=
  match pc with
  | CollectLocked | CollectRanging _ _ => true
  | CollectStart | CollectReturned _ => false
  end.

(** A complete snapshot: what one whole [scrape] of a collector with
    these settings assigns to [c.metrics]. *)
Definition complete (region : string) (arns : list string)
           (interval : Duration) (snapshot : list Metric) : Prop :=
  exists ms st,
    snapshot =
    metrics (fst (scrape {| metrics := ms;
                            scrapeInterval := interval;
                            region := region;
                            trustStoreARNs := arns |} st)).

(** A collector with the settings [New] was given. *)
Definition sameSettings (region0 : string) (arns : list string)
           (interval : Duration) (c : Collector) : Prop :=
  scrapeInterval c = interval /\ region c = region0 /\ trustStoreARNs c = arns.

(** What holds in every state of the system: the mutex is held by the
    goroutine that is between its [Lock] and its [Unlock]; a [Collect]
    in its loop has sent a prefix of the current [c.metrics] and has the
    rest of it to send; every value of [c.metrics] is a complete
    snapshot. *)
Record invariant (region0 : string) (arns : list string)
       (interval : Duration) (s : System) : Prop := {
  inv_scrape : scrapeHolds (scraper s) = true ->
               mutex s = Some ScrapeGoroutine;
  inv_collect : forall i, collectHolds (collects s i) = true ->
                          mutex s = Some (CollectGoroutine i);
  inv_ranging : forall i rest sent,
      collects s i = CollectRanging rest sent ->
      sent ++ rest = metrics (collector s);
  inv_returned : forall i sent,
      collects s i = CollectReturned sent -> In sent (published s);
  inv_current : In (metrics (collector s)) (published s);
  inv_settings : sameSettings region0 arns interval (collector s);
  inv_published : Forall (complete region0 arns interval) (published s);
  inv_cycle :
    match scraper s with
    | ScrapeCollected cy =>
        exists st, cy = fst (scrapeCollect (collector s) st)
    | ScrapeAppending cy ms pending =>
        (exists st, cy = fst (scrapeCollect (collector s) st))
        /\ ms ++ pending = appendExporter (collector s) cy
    | ScrapeIdle | ScrapeAssigned => True
    end }.

End Goroutines.

End Publisher.

(** ** A small world to run the model in *)

(** An instance of the three interfaces. A bundle is a sequence of
    two-byte blocks, a tag and a payload: tag 1 is a certificate block,
    tag 2 a private-key block, any other byte is not the start of a block.
    A certificate payload of 1 holds an RSA key of 2048 bits, 2 an ECDSA
    key on a 256-bit curve, 3 an Ed25519 key; any other payload does not
    parse. Trust store a has no readable bundle, b has two certificates,
    a key and trailing bytes, c has an Ed25519 certificate between two
    others, d has a certificate that does not parse. Every external
    call takes one second of the clock. *)
Module Example.

#[export] Instance names : X509Names := {|
  pkix_Name := string;
  pkix_Name_String := fun name => name;
  SignatureAlgorithm := string;
  SignatureAlgorithm_String := fun algo => algo |}.

Definition P256 : CurveParams := {| BitSize := 256; CurveName := "P-256" |}.

Definition certificate (serial : Z) (algo : string) (pub : PublicKey)
  : Certificate :=
  {| SerialNumber := serial;
     Issuer := "CN=Example Root";
     Subject := "CN=Example Root";
     SignatureAlgorithm_ := algo;
     PublicKey_ := pub;
     NotBefore := {| sec := 1700000000; nsec := 0 |};
     NotAfter := {| sec := 2000000000; nsec := 0 |} |}.

Definition rsaCertificate : Certificate :=
  certificate 1 "SHA256-RSA" (rsa_PublicKey (2 ^ 2047 + 1) 65537).

Definition ecdsaCertificate : Certificate :=
  certificate 2 "ECDSA-SHA256" (ecdsa_PublicKey P256 0 0).

Definition ed25519Certificate : Certificate :=
  certificate 3 "Ed25519" (ed25519_PublicKey []).

Definition decode (data : list Byte.byte) : option Block * list Byte.byte :=
  match data with
  | tag :: payload :: rest =>
      if Byte.eqb tag Byte.x01 then
        (Some {| Type_ := "CERTIFICATE"; Bytes := [payload] |}, rest)
      else if Byte.eqb tag Byte.x02 then
        (Some {| Type_ := "PRIVATE KEY"; Bytes := [payload] |}, rest)
      else (None, data)
  | _ => (None, data)
  end.

Definition parse (der : list Byte.byte) : result Certificate :=
  match der with
  | [payload] =>
      if Byte.eqb payload Byte.x01 then Ok rsaCertificate
      else if Byte.eqb payload Byte.x02 then Ok ecdsaCertificate
      else if Byte.eqb payload Byte.x03 then Ok ed25519Certificate
      else Err "x509: malformed certificate"
  | _ => Err "x509: malformed certificate"
  end.

#[export] Instance library : Library := {|
  pem_Decode := decode;
  x509_ParseCertificate := parse |}.

Definition storeA : TrustStore :=
  {| TrustStoreArn := "arn:a"; Name := "a";
     NumberOfCaCertificates := 1; TotalRevokedEntries := 0 |}.

Definition storeB : TrustStore :=
  {| TrustStoreArn := "arn:b"; Name := "b";
     NumberOfCaCertificates := 2; TotalRevokedEntries := 0 |}.

Definition storeC : TrustStore :=
  {| TrustStoreArn := "arn:c"; Name := "c";
     NumberOfCaCertificates := 3; TotalRevokedEntries := 4 |}.

Definition storeD : TrustStore :=
  {| TrustStoreArn := "arn:d"; Name := "d";
     NumberOfCaCertificates := 2; TotalRevokedEntries := 0 |}.

Definition stores : list TrustStore := [storeA; storeB; storeC; storeD].

Definition bundleB : list Byte.byte :=
  [Byte.x01; Byte.x01; Byte.x02; Byte.x07; Byte.x01; Byte.x02;
   Byte.x00; Byte.x00; Byte.x00].

Definition bundleC : list Byte.byte :=
  [Byte.x01; Byte.x01; Byte.x01; Byte.x03; Byte.x01; Byte.x02].

Definition bundleD : list Byte.byte :=
  [Byte.x01; Byte.x09; Byte.x01; Byte.x02].

Lemma decode_rest :
  forall data block rest,
    decode data = (Some block, rest) ->
    (List.length rest < List.length data)%nat.
Proof.
  intros [| tag [| payload data]] block rest; simpl; try discriminate.
  destruct (Byte.eqb tag Byte.x01).
  - intros H; inversion H; subst; simpl; lia.
  - destruct (Byte.eqb tag Byte.x02); [| discriminate].
    intros H; inversion H; subst; simpl; lia.
Qed.

#[export] Instance progress : @PemDecodeProgress names library := decode_rest.

Record Scenario : Type := {
  ticks : Z;
  configError : option error;
  describeError : option error }.

Definition tick (w : Scenario) : Scenario :=
  {| ticks := ticks w + 1;
     configError := configError w;
     describeError := describeError w |}.

Definition describe (input : DescribeTrustStoresInput) : list TrustStore :=
  match TrustStoreArns input with
  | [] => stores
  | arns =>
      filter (fun ts => existsb (String.eqb (TrustStoreArn ts)) arns) stores
  end.

#[export] Instance outside : Outside := {|
  World := Scenario;
  time_Now := fun w => ({| sec := ticks w; nsec := 0 |}, tick w);
  time_Since := fun t w => ((ticks w - sec t) * 1000000000, tick w);
  Config := string;
  config_LoadDefaultConfig := fun opts w =>
    (match configError w with
     | Some err => Err err
     | None =>
         Ok (match opts with WithRegion r :: _ => r | [] => "eu-west-1" end)
     end, tick w);
  Client := string;
  NewFromConfig := fun cfg => cfg;
  DescribeTrustStores := fun _ input w =>
    (match describeError w with
     | Some err => Err err
     | None => Ok {| TrustStores := describe input |}
     end, tick w);
  GetTrustStoreCaCertificatesBundle := fun _ arn w =>
    (if String.eqb arn "arn:a" then Err "AccessDenied"
     else Ok ("https://bundles/" ++ arn)%string, tick w);
  Response := list Byte.byte;
  http_Get := fun url w =>
    (if String.eqb url "https://bundles/arn:b" then Ok bundleB
     else if String.eqb url "https://bundles/arn:c" then Ok bundleC
     else if String.eqb url "https://bundles/arn:d" then Ok bundleD
     else Err "no such host", tick w);
  ioutil_ReadAll := fun resp w => (Ok resp, tick w);
  Body_Close := fun _ w => tick w |}.

Definition start (w : Scenario) : State := {| world := w; logged := [] |}.

(** A collector as [New] builds it, before its first cycle, with the
    default query interval of one hour. *)
Definition exporter (region0 : string) (arns : list string) : Collector :=
  {| metrics := [];
     scrapeInterval := 3600000000000;
     region := region0;
     trustStoreARNs := arns |}.

Definition healthy : Scenario :=
  {| ticks := 1700000000; configError := None; describeError := None |}.

Definition noCredentials : Scenario :=
  {| ticks := 1700000000;
     configError := Some "no credentials";
     describeError := None |}.

Definition accessDenied : Scenario :=
  {| ticks := 1700000000;
     configError := None;
     describeError := Some "AccessDenied" |}.

(** One [Collect] reads while a cycle collects, the cycle publishes once
    the read has returned, and a second [Collect] reads after it. *)
Definition readPublishRead : list Publisher.Goroutine :=
  [Publisher.CollectGoroutine 0; Publisher.CollectGoroutine 0;
   Publisher.ScrapeGoroutine;
   Publisher.CollectGoroutine 0; Publisher.CollectGoroutine 0;
   Publisher.CollectGoroutine 0; Publisher.CollectGoroutine 0;
   Publisher.CollectGoroutine 0;
   Publisher.ScrapeGoroutine; Publisher.ScrapeGoroutine;
   Publisher.ScrapeGoroutine; Publisher.ScrapeGoroutine;
   Publisher.ScrapeGoroutine; Publisher.ScrapeGoroutine;
   Publisher.ScrapeGoroutine;
   Publisher.CollectGoroutine 1; Publisher.CollectGoroutine 1;
   Publisher.CollectGoroutine 1; Publisher.CollectGoroutine 1;
   Publisher.CollectGoroutine 1; Publisher.CollectGoroutine 1;
   Publisher.CollectGoroutine 1].

End Example.


(** * Properties *)

Section Extraction.

Context `{Progress : PemDecodeProgress} `{Out : Outside}.

(** One iteration of the loop of [collectTrustStoreMetrics], by the
    result of [pem.Decode]. *)
Lemma certificateLoop_step (ts : TrustStore) (pemData : list Byte.byte)
      (metrics : list Metric) (st : State) :
  certificateLoop ts pemData metrics st =
  match pemData with
  | [] => ((metrics, None), st)
  | _ :: _ =>
      match pem_Decode pemData with
      | (None, _) => ((metrics, None), st)
      | (Some block, rest) =>
          if String.eqb (Type_ block) "CERTIFICATE" then
            match x509_ParseCertificate (Bytes block) with
            | Err err =>
                certificateLoop ts rest metrics
                  (logging st ["Error parsing certificate: " ++ err]%string)
            | Ok cert =>
                match keyLength (PublicKey_ cert) with
                | Err err => ((metrics, Some err), st)
                | Ok keyLength =>
                    certificateLoop ts rest
                      (appendCertificate ts cert keyLength metrics) st
                end
            end
          else certificateLoop ts rest metrics st
      end
  end.
Proof.
  destruct pemData as [| b data]; [now simp certificateLoop |].
  rewrite certificateLoop_equation_2.
  match goal with
  | |- _ = ?rhs =>
      let f := eval pattern (pem_Decode (b :: data)) in rhs in
      match f with
      | ?F _ =>
          enough (G : forall x (H : pem_Decode (b :: data) = x),
                     certificateLoop_unfold_clause_2
                       ts b data (exist _ x H) metrics st = F x)
            by exact (G _ eq_refl)
      end
  end.
  intros [[block |] rest] Hdecode; cbv beta; simp certificateLoop;
    [| reflexivity].
  destruct (String.eqb (Type_ block) "CERTIFICATE"); simp certificateLoop;
    [| reflexivity].
  destruct (x509_ParseCertificate (Bytes block)) as [cert | err];
    simp certificateLoop; [| reflexivity].
  destruct (keyLength (PublicKey_ cert)); simp certificateLoop; reflexivity.
Qed.

Lemma pemBlocks_step (pemData : list Byte.byte) :
  pemBlocks pemData =
  match pemData with
  | [] => []
  | _ :: _ =>
      match pem_Decode pemData with
      | (None, _) => []
      | (Some block, rest) => block :: pemBlocks rest
      end
  end.
Proof.
  destruct pemData as [| b data]; [now simp pemBlocks |].
  rewrite pemBlocks_equation_2.
  match goal with
  | |- _ = ?rhs =>
      let f := eval pattern (pem_Decode (b :: data)) in rhs in
      match f with
      | ?F _ =>
          enough (G : forall x (H : pem_Decode (b :: data) = x),
                     pemBlocks_unfold_clause_2 b data (exist _ x H) = F x)
            by exact (G _ eq_refl)
      end
  end.
  intros [[block |] rest] Hdecode; cbv beta; simp pemBlocks; reflexivity.
Qed.

Lemma logging_nil (st : State) : logging st [] = st.
Proof. destruct st; unfold logging; simpl; now rewrite app_nil_r. Qed.

Lemma logging_logging (st : State) (l1 l2 : list string) :
  logging (logging st l1) l2 = logging st (l1 ++ l2).
Proof. unfold logging; simpl; now rewrite app_assoc. Qed.

Lemma appendCertificate_app (ts : TrustStore) (cert : Certificate)
      (k : Z) (metrics : list Metric) :
  appendCertificate ts cert k metrics = metrics ++ certificateMetrics ts cert k.
Proof.
  unfold certificateMetrics, appendCertificate; simpl.
  now rewrite <- !app_assoc.
Qed.

(** The loop of [collectTrustStoreMetrics] computes the Extractor of the
    specification on the block sequence of the bundle: the facts are
    appended to the slice, the error is returned, the lines are logged,
    and nothing else of the state changes. *)
Lemma certificateLoop_extract (ts : TrustStore) (pemData : list Byte.byte) :
  forall (metrics : list Metric) (st : State),
    certificateLoop ts pemData metrics st =
    let '(facts, failure, lines) := extract ts (pemBlocks pemData) in
    ((metrics ++ facts, failure), logging st lines).
Proof.
  remember (List.length pemData) as n eqn:Hn.
  revert pemData Hn.
  induction n as [n IH] using lt_wf_ind; intros pemData Hn metrics st.
  rewrite certificateLoop_step, pemBlocks_step.
  destruct pemData as [| b data].
  { simpl. now rewrite app_nil_r, logging_nil. }
  destruct (pem_Decode (b :: data)) as [[block |] rest] eqn:Hdecode.
  2:{ simpl. now rewrite app_nil_r, logging_nil. }
  pose proof (pem_Decode_rest _ _ _ Hdecode) as Hlt.
  assert (Hrest : forall metrics st,
             certificateLoop ts rest metrics st =
             let '(facts, failure, lines) := extract ts (pemBlocks rest) in
             ((metrics ++ facts, failure), logging st lines)).
  { intros. apply (IH (List.length rest)); [subst n; exact Hlt | reflexivity]. }
  cbn [extract]. unfold isCertificateBlock.
  destruct (String.eqb (Type_ block) "CERTIFICATE"); [| apply Hrest].
  destruct (x509_ParseCertificate (Bytes block)) as [cert | err].
  - destruct (keyLength (PublicKey_ cert)) as [k | err].
    + rewrite Hrest, appendCertificate_app.
      destruct (extract ts (pemBlocks rest)) as [[facts failure] lines].
      now rewrite <- app_assoc.
    + now rewrite app_nil_r, logging_nil.
  - rewrite Hrest.
    destruct (extract ts (pemBlocks rest)) as [[facts failure] lines].
    now rewrite logging_logging.
Qed.

End Extraction.

Section Cycle.

Context `{Progress : PemDecodeProgress} `{Out : Outside}.

(** [collectTrustStoreMetrics] in one equation: the three samples of the
    enumerated record are appended first; a failed fetch returns its
    error; otherwise the facts of the bundle are appended and the error
    of the extraction is returned. *)
Lemma collectTrustStoreMetrics_spec (c : Collector) (svc : Client)
      (ts : TrustStore) (metrics : list Metric) (st : State) :
  collectTrustStoreMetrics c svc ts metrics st =
  match fetchBundle svc ts (world st) with
  | (Err err, w) =>
      ((metrics ++ trustStoreMetrics c ts, Some err),
       {| world := w; logged := logged st |})
  | (Ok pemData, w) =>
      let '(facts, failure, lines) := extract ts (pemBlocks pemData) in
      ((metrics ++ trustStoreMetrics c ts ++ facts, failure),
       {| world := w; logged := logged st ++ lines |})
  end.
Proof.
  unfold collectTrustStoreMetrics, fetchBundle, bind, call, effect, ret.
  cbn [world logged].
  assert (Happ : ((metrics ++ [MustNewConstMetric trustStoreInfo (Float64OfInt 1)
                                 [TrustStoreArn ts; Name ts; region c]])
                  ++ [MustNewConstMetric trustStoreCertificates
                        (Float64OfInt (NumberOfCaCertificates ts))
                        [TrustStoreArn ts]])
                 ++ [MustNewConstMetric trustStoreRevokedEntries
                       (Float64OfInt (TotalRevokedEntries ts))
                       [TrustStoreArn ts]]
                 = metrics ++ trustStoreMetrics c ts).
  { unfold trustStoreMetrics. now rewrite <- !app_assoc. }
  rewrite Happ.
  destruct (GetTrustStoreCaCertificatesBundle svc (TrustStoreArn ts) (world st))
    as [[Location | err] w1]; cbn [world logged]; [| reflexivity].
  destruct (http_Get Location w1) as [[resp | err] w2]; cbn [world logged];
    [| reflexivity].
  destruct (ioutil_ReadAll resp w2) as [[pemData | err] w3]; cbn [world logged];
    [| reflexivity].
  rewrite certificateLoop_extract.
  destruct (extract ts (pemBlocks pemData)) as [[facts failure] lines].
  unfold logging; cbn [world logged]. now rewrite <- app_assoc.
Qed.

(** The samples and the state a call leaves do not depend on the slice
    it appends to. *)
Lemma collectTrustStoreMetrics_frame (c : Collector) (svc : Client)
      (ts : TrustStore) (metrics : list Metric) (st : State) :
  collectTrustStoreMetrics c svc ts metrics st =
  let '((added, err), st') := collectTrustStoreMetrics c svc ts [] st in
  ((metrics ++ added, err), st').
Proof.
  rewrite !collectTrustStoreMetrics_spec.
  destruct (fetchBundle svc ts (world st)) as [[pemData | err] w];
    [| reflexivity].
  destruct (extract ts (pemBlocks pemData)) as [[facts failure] lines].
  reflexivity.
Qed.

Lemma trustStoreLoop_app (c : Collector) (svc : Client)
      (before after : list TrustStore) :
  forall (metrics : list Metric) (success : bool) (st : State),
    trustStoreLoop c svc (before ++ after) metrics success st =
    let '((metrics', success'), st') :=
      trustStoreLoop c svc before metrics success st in
    trustStoreLoop c svc after metrics' success' st'.
Proof.
  induction before as [| ts before IH]; intros metrics success st.
  - reflexivity.
  - cbn [app trustStoreLoop]. unfold bind at 1 3.
    destruct (collectTrustStoreMetrics c svc ts metrics st)
      as [[metrics1 [err |]] st1].
    + unfold bind, log_Print. apply IH.
    + apply IH.
Qed.

(** The loop appends to its slice, clears the flag on a failure and
    never sets it; what it appends and the state it leaves depend on
    neither. *)
Lemma trustStoreLoop_frame (c : Collector) (svc : Client)
      (trustStores : list TrustStore) :
  forall (metrics : list Metric) (success : bool) (st : State),
    trustStoreLoop c svc trustStores metrics success st =
    let '((added, ok), st') := trustStoreLoop c svc trustStores [] true st in
    ((metrics ++ added, success && ok), st').
Proof.
  induction trustStores as [| ts trustStores IH]; intros metrics success st.
  - cbn. now rewrite app_nil_r, andb_true_r.
  - cbn [trustStoreLoop]. unfold bind at 1 3.
    rewrite (collectTrustStoreMetrics_frame c svc ts metrics st).
    destruct (collectTrustStoreMetrics c svc ts [] st)
      as [[added [err |]] st1]; cbn [app].
    + unfold bind, log_Print.
      rewrite (IH (metrics ++ added)), (IH added).
      destruct (trustStoreLoop c svc trustStores [] true _)
        as [[added' ok'] st'].
      now rewrite app_assoc, andb_false_r.
    + rewrite (IH (metrics ++ added) success), (IH added true).
      destruct (trustStoreLoop c svc trustStores [] true st1)
        as [[added' ok'] st'].
      now rewrite app_assoc.
Qed.

(** [scrapeCollect] in one equation. *)
Lemma scrapeCollect_spec (c : Collector) (st : State) :
  scrapeCollect c st =
  let '((ms, ok), st') := collection c st in
  let (d, w) := time_Since (fst (time_Now (world st))) (world st') in
  ({| now := fst (time_Now (world st));
      collected := ms;
      success := ok;
      scrapeDuration := d |},
   {| world := w; logged := logged st' |}).
Proof.
  unfold scrapeCollect, collection, enumeration, bind, call, log_Print, ret.
  cbn [world logged snd].
  destruct (time_Now (world st)) as [now0 w1]; cbn [world logged snd fst].
  destruct (config_LoadDefaultConfig (cfgOpts c) w1) as [[cfg | err] w2];
    cbn [world logged snd].
  - destruct (DescribeTrustStores (NewFromConfig cfg) (input c) w2)
      as [[result | err] w3]; cbn [world logged snd].
    + destruct (trustStoreLoop c (NewFromConfig cfg) (TrustStores result) [] true _)
        as [[ms ok] st'].
      cbn [world logged snd fst].
      destruct (time_Since now0 (world st')); reflexivity.
    + destruct (time_Since now0 w3); reflexivity.
  - destruct (time_Since now0 w2); reflexivity.
Qed.

(** The snapshot a cycle publishes: the collected samples, then the four
    exporter samples. *)
Lemma scrape_snapshot (c : Collector) (st : State) :
  metrics (fst (scrape c st)) =
  collected (fst (scrapeCollect c st))
  ++ exporterMetrics c (fst (scrapeCollect c st)).
Proof.
  unfold scrape, bind, ret.
  destruct (scrapeCollect c st) as [cy st']; cbn [fst metrics set_metrics].
  unfold appendExporter, exporterMetrics.
  destruct (success cy); now rewrite <- !app_assoc.
Qed.

(** *** What a cycle can emit *)

Lemma emitted_shape (c : Collector) (m : Metric) :
  emitted c m ->
  exporterLevel (desc m) = false /\
  trustStoreLevel (desc m) || certificateLevel (desc m) = true /\
  List.length (labelValues m) = List.length (variableLabels (desc m)) /\
  (desc m = trustStoreInfo -> nth_error (labelValues m) 2 = Some (region c)).
Proof.
  intros [[ts Hin] | (ts & cert & k & Hin)]; cbn in Hin;
    repeat (destruct Hin as [<- | Hin]; [cbn; repeat split; congruence |]);
    destruct Hin.
Qed.

Lemma extract_emitted (c : Collector) (ts : TrustStore) (blocks : list Block) :
  Forall (emitted c) (fst (fst (extract ts blocks))).
Proof.
  induction blocks as [| block blocks IH]; cbn [extract]; [constructor |].
  destruct (isCertificateBlock block); [| exact IH].
  destruct (x509_ParseCertificate (Bytes block)) as [cert | err].
  - destruct (keyLength (PublicKey_ cert)) as [k | err]; [| constructor].
    destruct (extract ts blocks) as [[facts failure] lines]; cbn [fst] in *.
    apply Forall_app; split; [| exact IH].
    apply Forall_forall; intros m Hm. right. now exists ts, cert, k.
  - destruct (extract ts blocks) as [[facts failure] lines]. exact IH.
Qed.

Lemma collectTrustStoreMetrics_emitted (c : Collector) (svc : Client)
      (ts : TrustStore) (metrics : list Metric) (st : State) :
  Forall (emitted c) metrics ->
  Forall (emitted c) (fst (fst (collectTrustStoreMetrics c svc ts metrics st))).
Proof.
  intros Hm. rewrite collectTrustStoreMetrics_spec.
  assert (Hts : Forall (emitted c) (trustStoreMetrics c ts)).
  { apply Forall_forall; intros m Hin. left. now exists ts. }
  destruct (fetchBundle svc ts (world st)) as [[pemData | err] w]; cbn [fst].
  - pose proof (extract_emitted c ts (pemBlocks pemData)) as He.
    destruct (extract ts (pemBlocks pemData)) as [[facts failure] lines].
    cbn [fst] in *. now rewrite !Forall_app.
  - now rewrite Forall_app.
Qed.

Lemma trustStoreLoop_emitted (c : Collector) (svc : Client)
      (trustStores : list TrustStore) :
  forall (metrics : list Metric) (success : bool) (st : State),
    Forall (emitted c) metrics ->
    Forall (emitted c)
           (fst (fst (trustStoreLoop c svc trustStores metrics success st))).
Proof.
  induction trustStores as [| ts trustStores IH]; intros metrics success st Hm.
  - exact Hm.
  - cbn [trustStoreLoop]. unfold bind at 1.
    pose proof (collectTrustStoreMetrics_emitted c svc ts metrics st Hm) as Hc.
    destruct (collectTrustStoreMetrics c svc ts metrics st)
      as [[metrics1 [err |]] st1]; cbn [fst] in Hc.
    + unfold bind, log_Print. now apply IH.
    + now apply IH.
Qed.

Lemma collected_emitted (c : Collector) (st : State) :
  Forall (emitted c) (collected (fst (scrapeCollect c st))).
Proof.
  rewrite scrapeCollect_spec. unfold collection.
  destruct (enumeration c st) as [[[svc trustStores] |] st'].
  - pose proof (trustStoreLoop_emitted c svc trustStores [] true st'
                                       (Forall_nil _)) as Hl.
    destruct (trustStoreLoop c svc trustStores [] true st') as [[ms ok] st''].
    cbn [fst] in Hl.
    destruct (time_Since _ _); exact Hl.
  - destruct (time_Since _ _); constructor.
Qed.


Lemma filter_all_false {A : Type} (f : A -> bool) (l : list A) :
  Forall (fun x => f x = false) l -> filter f l = [].
Proof.
  induction 1 as [| x l Hx _ IH]; cbn; [reflexivity |]. now rewrite Hx.
Qed.

Lemma snapshot_exporter_samples (c : Collector) (st : State) :
  filter (fun m => exporterLevel (desc m)) (metrics (fst (scrape c st)))
  = exporterMetrics c (fst (scrapeCollect c st)).
Proof.
  rewrite scrape_snapshot, filter_app.
  rewrite (filter_all_false _ (collected _)).
  2:{ eapply Forall_impl; [| apply collected_emitted].
      intros m Hm. now apply (emitted_shape c). }
  unfold exporterMetrics.
  destruct (success (fst (scrapeCollect c st))); reflexivity.
Qed.

(** C3. Every cycle publishes exactly the four exporter-level samples,
    each once (last-scrape timestamp, scrape duration, scrape interval,
    collector success), whatever configuration resolution, enumeration
    and the trust stores did. *)
Theorem C3_four_exporter_samples (c : Collector) (st : State) :
  let snapshot := metrics (fst (scrape c st)) in
  filter (fun m => exporterLevel (desc m)) snapshot
  = exporterMetrics c (fst (scrapeCollect c st))
  /\ map desc (filter (fun m => exporterLevel (desc m)) snapshot)
     = [exporterLastScrapeTimestamp; exporterScrapeDurationSeconds;
        exporterScrapeInterval; collectorSuccess].
Proof.
  cbv zeta. rewrite snapshot_exporter_samples. split; [reflexivity |].
  unfold exporterMetrics.
  destruct (success (fst (scrapeCollect c st))); reflexivity.
Qed.

Lemma successValue_snapshot (c : Collector) (st : State) :
  successValue (metrics (fst (scrape c st))) =
  [Float64OfInt (if success (fst (scrapeCollect c st)) then 1 else 0)].
Proof.
  unfold successValue. rewrite scrape_snapshot, filter_app.
  rewrite (filter_all_false _ (collected _)).
  2:{ eapply Forall_impl; [| apply collected_emitted].
      intros m Hm. apply (emitted_shape c) in Hm as [Hm _].
      destruct (desc m); try reflexivity; discriminate. }
  unfold exporterMetrics.
  destruct (success (fst (scrapeCollect c st))); reflexivity.
Qed.

Lemma collection_cycle (c : Collector) (st : State) :
  (collected (fst (scrapeCollect c st)), success (fst (scrapeCollect c st)))
  = fst (collection c st).
Proof.
  rewrite scrapeCollect_spec.
  destruct (collection c st) as [[ms ok] st'].
  destruct (time_Since _ _); reflexivity.
Qed.

(** The enumeration gives trust stores exactly when configuration
    resolution and the enumeration call both return without error. *)
Lemma enumeration_succeeds (c : Collector) (st : State) :
  (exists svc trustStores, fst (enumeration c st) = Some (svc, trustStores))
  <->
  (exists cfg w1 result w2,
      config_LoadDefaultConfig (cfgOpts c) (snd (time_Now (world st)))
      = (Ok cfg, w1)
      /\ DescribeTrustStores (NewFromConfig cfg) (input c) w1 = (Ok result, w2)).
Proof.
  unfold enumeration, call, log_Print; cbn [world logged snd].
  destruct (time_Now (world st)) as [now0 w0]; cbn [world logged snd].
  destruct (config_LoadDefaultConfig (cfgOpts c) w0) as [[cfg | err] w1];
    cbn [world logged snd fst].
  - destruct (DescribeTrustStores (NewFromConfig cfg) (input c) w1)
      as [[result | err] w2] eqn:Hd; cbn [fst].
    + split; intros _; [now exists cfg, w1, result, w2 | eauto].
    + split; [intros (? & ? & ?); discriminate |].
      intros (cfg' & w1' & result & w2' & Hc & Hd').
      inversion Hc; subst. rewrite Hd in Hd'. discriminate.
  - split; [intros (? & ? & ?); discriminate |].
    intros (cfg' & w1' & result & w2' & Hc & _). discriminate.
Qed.

(** C5. When configuration resolution or the enumeration call fails, the
    snapshot has no trust-store sample and no certificate sample (it is
    the four exporter samples alone), and collector_success is 0. *)
Theorem C5_failed_enumeration (c : Collector) (st : State) :
  let w := snd (time_Now (world st)) in
  (exists err w1, config_LoadDefaultConfig (cfgOpts c) w = (Err err, w1))
  \/ (exists cfg w1 err w2,
         config_LoadDefaultConfig (cfgOpts c) w = (Ok cfg, w1)
         /\ DescribeTrustStores (NewFromConfig cfg) (input c) w1
            = (Err err, w2)) ->
  let snapshot := metrics (fst (scrape c st)) in
  snapshot = exporterMetrics c (fst (scrapeCollect c st))
  /\ filter (fun m => trustStoreLevel (desc m) || certificateLevel (desc m))
            snapshot = []
  /\ successValue snapshot = [Float64OfInt 0].
Proof.
  cbv zeta. intros Hfail.
  assert (Hnone : fst (enumeration c st) = None).
  { destruct (fst (enumeration c st)) as [[svc trustStores] |] eqn:He;
      [| reflexivity].
    assert (Hsome : exists svc trustStores,
               fst (enumeration c st) = Some (svc, trustStores)) by eauto.
    apply enumeration_succeeds in Hsome
      as (cfg & w1 & result & w2 & Hc & Hd).
    destruct Hfail as [(err & w1' & Hc') | (cfg' & w1' & err & w2' & Hc' & Hd')];
      rewrite Hc in Hc'; inversion Hc'; subst.
    rewrite Hd in Hd'. discriminate. }
  pose proof (collection_cycle c st) as Hcy.
  unfold collection in Hcy.
  destruct (enumeration c st) as [[[svc trustStores] |] st'];
    cbn [fst] in Hnone; [discriminate |].
  cbn [fst] in Hcy. inversion Hcy as [[Hcollected Hsuccess]].
  rewrite successValue_snapshot, scrape_snapshot, Hcollected, Hsuccess.
  cbn [app]. repeat split.
  unfold exporterMetrics. rewrite Hsuccess. reflexivity.
Qed.

Lemma trustStoreLoop_success (c : Collector) (svc : Client)
      (trustStores : list TrustStore) :
  forall (metrics : list Metric) (success : bool) (st : State),
    snd (fst (trustStoreLoop c svc trustStores metrics success st)) =
    success && forallb isNil (returnedErrors c svc trustStores metrics st).
Proof.
  induction trustStores as [| ts trustStores IH]; intros metrics success st.
  - cbn. now rewrite andb_true_r.
  - cbn [trustStoreLoop returnedErrors]. unfold bind at 1.
    destruct (collectTrustStoreMetrics c svc ts metrics st)
      as [[metrics1 [err |]] st1]; cbn [forallb isNil].
    + unfold bind. cbn [log_Print]. rewrite IH. cbn. now rewrite andb_false_r.
    + rewrite IH. reflexivity.
Qed.

(** A call of [collectTrustStoreMetrics] returns nil exactly when the
    bundle was fetched and read and its extraction met no unsupported
    key. *)
Lemma collectTrustStoreMetrics_nil (c : Collector) (svc : Client)
      (ts : TrustStore) (metrics : list Metric) (st : State) :
  isNil (snd (fst (collectTrustStoreMetrics c svc ts metrics st))) = true
  <->
  (exists pemData w,
      fetchBundle svc ts (world st) = (Ok pemData, w)
      /\ snd (fst (extract ts (pemBlocks pemData))) = None).
Proof.
  rewrite collectTrustStoreMetrics_spec.
  destruct (fetchBundle svc ts (world st)) as [[pemData | err] w].
  - destruct (extract ts (pemBlocks pemData)) as [[facts [err |]] lines] eqn:He;
      cbn [fst snd isNil].
    + split; [discriminate |].
      intros (pemData' & w' & Hf & Hx). inversion Hf; subst.
      rewrite He in Hx. discriminate.
    + split; [| reflexivity].
      intros _. exists pemData, w. now rewrite He.
  - cbn [fst snd isNil]. split; [discriminate |].
    intros (? & ? & Hf & _). discriminate.
Qed.

(** C8. collector_success is 1 exactly when configuration resolution and
    enumeration succeeded and [collectTrustStoreMetrics] returned nil for
    every enumerated trust store, which it does exactly when the bundle
    was fetched and its extraction met no unsupported key; otherwise it
    is 0. The other three exporter samples carry the cycle's start time,
    the duration [time.Since] of it at the end of the collection, and the
    configured interval. *)
Theorem C8_collector_success (c : Collector) (st : State) :
  let snapshot := metrics (fst (scrape c st)) in
  let start := fst (time_Now (world st)) in
  (successValue snapshot = [Float64OfInt 1] <->
   exists svc trustStores st',
     enumeration c st = (Some (svc, trustStores), st')
     /\ forallb isNil (returnedErrors c svc trustStores [] st') = true)
  /\ (successValue snapshot <> [Float64OfInt 1] ->
      successValue snapshot = [Float64OfInt 0])
  /\ ((exists svc trustStores, fst (enumeration c st) = Some (svc, trustStores))
      <->
      (exists cfg w1 result w2,
          config_LoadDefaultConfig (cfgOpts c) (snd (time_Now (world st)))
          = (Ok cfg, w1)
          /\ DescribeTrustStores (NewFromConfig cfg) (input c) w1
             = (Ok result, w2)))
  /\ (forall svc ts ms st1,
         isNil (snd (fst (collectTrustStoreMetrics c svc ts ms st1))) = true
         <->
         (exists pemData w,
             fetchBundle svc ts (world st1) = (Ok pemData, w)
             /\ snd (fst (extract ts (pemBlocks pemData))) = None))
  /\ filter (fun m => exporterLevel (desc m)) snapshot
     = [MustNewConstMetric exporterLastScrapeTimestamp
          (Float64OfInt (Time_Unix start)) [];
        MustNewConstMetric exporterScrapeDurationSeconds
          (DurationSeconds
             (fst (time_Since start (world (snd (collection c st)))))) [];
        MustNewConstMetric exporterScrapeInterval
          (DurationSeconds (scrapeInterval c)) [];
        MustNewConstMetric collectorSuccess
          (Float64OfInt (if snd (fst (collection c st)) then 1 else 0)) []].
Proof.
  cbv zeta.
  pose proof (collection_cycle c st) as Hcy.
  rewrite successValue_snapshot.
  split; [| split; [| split; [| split]]].
  - replace (success (fst (scrapeCollect c st)))
      with (snd (fst (collection c st))) by now rewrite <- Hcy.
    unfold collection.
    destruct (enumeration c st) as [[[svc trustStores] |] st'].
    + rewrite trustStoreLoop_success. cbn [andb].
      destruct (forallb isNil (returnedErrors c svc trustStores [] st')) eqn:Hall.
      * split; [intros _ | reflexivity]. now exists svc, trustStores, st'.
      * split; [discriminate |].
        intros (svc' & ts' & st'' & He & Hall'). inversion He; subst.
        rewrite Hall in Hall'. discriminate.
    + cbn [fst snd]. split; [discriminate |].
      intros (? & ? & ? & He & _). discriminate.
  - destruct (success (fst (scrapeCollect c st))); [congruence | reflexivity].
  - apply enumeration_succeeds.
  - intros. apply collectTrustStoreMetrics_nil.
  - rewrite snapshot_exporter_samples.
    unfold exporterMetrics. rewrite scrapeCollect_spec.
    destruct (collection c st) as [[ms ok] st']. cbn [fst snd].
    destruct (time_Since _ _). cbn [fst now scrapeDuration success].
    destruct ok; reflexivity.
Qed.

(** *** A trust store that fails *)

Lemma trustStoreLoop_incl (c : Collector) (svc : Client)
      (trustStores : list TrustStore) :
  forall (metrics : list Metric) (success : bool) (st : State) (ts : TrustStore),
    In ts trustStores ->
    incl (trustStoreMetrics c ts)
         (fst (fst (trustStoreLoop c svc trustStores metrics success st))).
Proof.
  induction trustStores as [| ts0 trustStores IH];
    intros metrics success st ts Hin; [destruct Hin |].
  cbn [trustStoreLoop]. unfold bind at 1.
  rewrite collectTrustStoreMetrics_spec.
  assert (Hgoal : forall ok st1 extra,
             incl (trustStoreMetrics c ts)
                  (fst (fst (trustStoreLoop c svc trustStores
                               (metrics ++ trustStoreMetrics c ts0 ++ extra)
                               ok st1)))).
  { intros ok st1 extra. rewrite trustStoreLoop_frame.
    destruct (trustStoreLoop c svc trustStores [] true st1)
      as [[added ok'] st2] eqn:Hl. cbn [fst].
    intros m Hm. destruct Hin as [-> | Hin].
    - apply in_or_app. left.
      apply in_or_app. right. apply in_or_app. now left.
    - apply in_or_app. right.
      pose proof (IH [] true st1 ts Hin m Hm) as Hi.
      now rewrite Hl in Hi. }
  destruct (fetchBundle svc ts0 (world st)) as [[pemData | err] w].
  - destruct (extract ts0 (pemBlocks pemData)) as [[facts [err |]] lines].
    + unfold bind, log_Print. apply Hgoal.
    + apply Hgoal.
  - unfold bind, log_Print.
    rewrite <- (app_nil_r (trustStoreMetrics c ts0)). apply Hgoal.
Qed.

(** The cycle from a failing trust store on: the flag is cleared, the
    error is logged, and the loop goes on with the remaining trust
    stores, appending what a loop over them alone appends. *)
Lemma collection_failure (c : Collector) (st : State) (svc : Client)
      (before : list TrustStore) (ts : TrustStore) (after : list TrustStore)
      (st0 : State) (err : error) :
  enumeration c st = (Some (svc, before ++ ts :: after), st0) ->
  let reached := reaching c svc before st0 in
  let returned :=
    collectTrustStoreMetrics c svc ts (fst (fst reached)) (snd reached) in
  snd (fst returned) = Some err ->
  let remaining :=
    trustStoreLoop c svc after [] true
      (logging (snd returned)
         ["Error collecting metrics for trust store "
          ++ TrustStoreArn ts ++ ": " ++ err]%string) in
  fst (collection c st)
  = (fst (fst returned) ++ fst (fst remaining), false).
Proof.
  intros Henum reached returned Herr remaining. unfold reaching in reached.
  unfold collection. rewrite Henum, trustStoreLoop_app.
  fold reached. destruct reached as [[m1 ok1] st1] eqn:Hreached.
  cbn [trustStoreLoop]. unfold bind at 1.
  cbn [fst snd] in returned. fold returned.
  destruct returned as [[m2 failure] st2] eqn:Hreturned.
  cbn [fst snd] in Herr, remaining. subst failure.
  unfold bind, log_Print. rewrite trustStoreLoop_frame.
  change {| world := world st2;
            logged := logged st2
                      ++ [("Error collecting metrics for trust store "
                           ++ TrustStoreArn ts ++ ": " ++ err)%string] |}
    with (logging st2 ["Error collecting metrics for trust store "
                       ++ TrustStoreArn ts ++ ": " ++ err]%string).
  fold remaining. destruct remaining as [[added ok] st3]. reflexivity.
Qed.

(** C4. When the collection of one trust store fails, the success flag
    of the cycle becomes false and the loop continues with every
    remaining trust store: the cycle collects, after the samples it had
    at the failure, exactly what the loop over the remaining trust
    stores collects on its own, and the info samples of each of them are
    in the snapshot. *)
Theorem C4_failure_does_not_stop_the_loop (c : Collector) (st : State)
        (svc : Client) (before : list TrustStore) (ts : TrustStore)
        (after : list TrustStore) (st0 : State) (err : error) :
  enumeration c st = (Some (svc, before ++ ts :: after), st0) ->
  let reached := reaching c svc before st0 in
  let returned :=
    collectTrustStoreMetrics c svc ts (fst (fst reached)) (snd reached) in
  snd (fst returned) = Some err ->
  let remaining :=
    trustStoreLoop c svc after [] true
      (logging (snd returned)
         ["Error collecting metrics for trust store "
          ++ TrustStoreArn ts ++ ": " ++ err]%string) in
  success (fst (scrapeCollect c st)) = false
  /\ successValue (metrics (fst (scrape c st))) = [Float64OfInt 0]
  /\ collected (fst (scrapeCollect c st))
     = fst (fst returned) ++ fst (fst remaining)
  /\ (forall ts', In ts' after ->
                 incl (trustStoreMetrics c ts') (fst (fst remaining))
                 /\ incl (trustStoreMetrics c ts')
                         (metrics (fst (scrape c st)))).
Proof.
  intros Henum reached returned Herr remaining.
  pose proof (collection_failure c st svc before ts after st0 err Henum Herr)
    as Hfail.
  cbv zeta in Hfail. fold reached returned remaining in Hfail.
  pose proof (collection_cycle c st) as Hcy. rewrite Hfail in Hcy.
  inversion Hcy as [[Hcollected Hsuccess]].
  rewrite successValue_snapshot, Hsuccess.
  repeat split.
  - now apply trustStoreLoop_incl.
  - rewrite scrape_snapshot, Hcollected.
    intros m Hm. apply in_or_app. left. apply in_or_app. right.
    revert m Hm. now apply trustStoreLoop_incl.
Qed.

(** C1, as the code has it. When the processing of a trust store fails
    (bundle-location call, HTTP fetch, body read, or an unrecognized key
    kind), collector_success is 0 and the samples of the other trust
    stores are those of the loops over them; the info, certificates and
    revoked-entries samples of the failing trust store are in the
    snapshot all the same, followed by the facts extracted before an
    unrecognized key kind, and by nothing else of that trust store. *)
Theorem C1_failed_trust_store_samples (c : Collector) (st : State)
        (svc : Client) (before : list TrustStore) (ts : TrustStore)
        (after : list TrustStore) (st0 : State) (err : error) :
  enumeration c st = (Some (svc, before ++ ts :: after), st0) ->
  let reached := reaching c svc before st0 in
  let returned :=
    collectTrustStoreMetrics c svc ts (fst (fst reached)) (snd reached) in
  snd (fst returned) = Some err ->
  let facts :=
    match fetchBundle svc ts (world (snd reached)) with
    | (Ok pemData, _) => fst (fst (extract ts (pemBlocks pemData)))
    | (Err _, _) => []
    end in
  let remaining :=
    trustStoreLoop c svc after [] true
      (logging (snd returned)
         ["Error collecting metrics for trust store "
          ++ TrustStoreArn ts ++ ": " ++ err]%string) in
  metrics (fst (scrape c st))
  = fst (fst reached) ++ (trustStoreMetrics c ts ++ facts)
    ++ fst (fst remaining) ++ exporterMetrics c (fst (scrapeCollect c st))
  /\ successValue (metrics (fst (scrape c st))) = [Float64OfInt 0]
  /\ Forall (fun m => certificateLevel (desc m) = true) facts.
Proof.
  intros Henum reached returned Herr facts remaining.
  pose proof (collection_failure c st svc before ts after st0 err Henum Herr)
    as Hfail.
  cbv zeta in Hfail. fold reached returned remaining in Hfail.
  pose proof (collection_cycle c st) as Hcy. rewrite Hfail in Hcy.
  inversion Hcy as [[Hcollected Hsuccess]].
  rewrite successValue_snapshot, Hsuccess, scrape_snapshot, Hcollected.
  assert (Hreturned : fst (fst returned)
                      = fst (fst reached) ++ trustStoreMetrics c ts ++ facts).
  { subst returned facts. rewrite collectTrustStoreMetrics_spec.
    destruct (fetchBundle svc ts (world (snd reached))) as [[pemData | e] w].
    - destruct (extract ts (pemBlocks pemData)) as [[fs failure] lines].
      reflexivity.
    - cbn [fst]. now rewrite app_nil_r. }
  rewrite Hreturned. repeat split.
  - now rewrite <- !app_assoc.
  - subst facts.
    destruct (fetchBundle svc ts (world (snd reached))) as [[pemData | e] w];
      [| constructor].
    clear. induction (pemBlocks pemData) as [| block blocks IH];
      cbn [extract]; [constructor |].
    destruct (isCertificateBlock block); [| exact IH].
    destruct (x509_ParseCertificate (Bytes block)) as [cert | e].
    + destruct (keyLength (PublicKey_ cert)) as [k | e]; [| constructor].
      destruct (extract ts blocks) as [[fs failure] lines]; cbn [fst] in *.
      repeat constructor. exact IH.
    + destruct (extract ts blocks) as [[fs failure] lines]. exact IH.
Qed.

(** C10. The region label of every trust-store info sample is the region
    the collector was constructed with, the argument of [New]; every
    enumerated trust store has such a sample. With no region configured,
    no region option is passed to the SDK, which then discovers the
    region, and the label is the empty string whatever was discovered. *)
Theorem C10_region_label (c : Collector) (st : State) :
  let snapshot := metrics (fst (scrape c st)) in
  (forall m, In m snapshot -> desc m = trustStoreInfo ->
             nth_error (labelValues m) 2 = Some (region c))
  /\ (forall svc trustStores st' ts,
         enumeration c st = (Some (svc, trustStores), st') ->
         In ts trustStores ->
         In (MustNewConstMetric trustStoreInfo (Float64OfInt 1)
               [TrustStoreArn ts; Name ts; region c]) snapshot)
  /\ region (fst (scrape c st)) = region c
  /\ (forall region0 arns interval,
         region (fst (New region0 arns interval st)) = region0)
  /\ (region c = "" ->
      cfgOpts c = []
      /\ forall m, In m snapshot -> desc m = trustStoreInfo ->
                   nth_error (labelValues m) 2 = Some "").
Proof.
  cbv zeta.
  assert (Hlabel : forall m, In m (metrics (fst (scrape c st))) ->
                             desc m = trustStoreInfo ->
                             nth_error (labelValues m) 2 = Some (region c)).
  { intros m Hin Hdesc. rewrite scrape_snapshot in Hin.
    apply in_app_or in Hin as [Hin | Hin].
    - pose proof (collected_emitted c st) as Hall.
      rewrite Forall_forall in Hall.
      now apply (emitted_shape c m (Hall m Hin)).
    - unfold exporterMetrics in Hin.
      destruct (success (fst (scrapeCollect c st))); cbn in Hin;
        repeat (destruct Hin as [<- | Hin]; [discriminate |]); destruct Hin. }
  assert (Hregion : forall c0 st0, region (fst (scrape c0 st0)) = region c0).
  { intros c0 st1. unfold scrape, bind, ret.
    destruct (scrapeCollect c0 st1); reflexivity. }
  split; [exact Hlabel | split; [| split; [| split]]].
  - intros svc trustStores st' ts Henum Hin.
    rewrite scrape_snapshot. apply in_or_app. left.
    pose proof (collection_cycle c st) as Hcy.
    unfold collection in Hcy. rewrite Henum in Hcy.
    pose proof (trustStoreLoop_incl c svc trustStores [] true st' ts Hin)
      as Hincl.
    rewrite <- Hcy in Hincl. apply Hincl. now left.
  - apply Hregion.
  - intros region0 arns interval. unfold New. now rewrite Hregion.
  - intros Hempty. split.
    + unfold cfgOpts. now rewrite Hempty.
    + intros m Hin Hdesc. rewrite <- Hempty. now apply Hlabel.
Qed.

End Cycle.

Section Certificates.

Context `{Progress : PemDecodeProgress} `{Out : Outside}.

Lemma BitLen_bits (N n : Z) : 0 < n -> 2 ^ (n - 1) <= N < 2 ^ n -> BitLen N = n.
Proof.
  intros Hn [Hlo Hhi]. unfold BitLen.
  assert (Hpos : 0 < N).
  { eapply Z.lt_le_trans; [| exact Hlo]. apply Z.pow_pos_nonneg; lia. }
  destruct (Z.eqb_spec N 0) as [-> | _]; [lia |].
  rewrite Z.abs_eq by lia.
  rewrite (Z.log2_unique N (n - 1)); [lia | lia |].
  replace (Z.succ (n - 1)) with n by lia. split; assumption.
Qed.

Lemma pem_Decode_nonempty (pemData : list Byte.byte) (block : Block)
      (rest : list Byte.byte) :
  pem_Decode pemData = (Some block, rest) ->
  exists b data, pemData = b :: data.
Proof.
  intros Hdecode. apply pem_Decode_rest in Hdecode.
  destruct pemData as [| b data]; [cbn in Hdecode; lia | eauto].
Qed.

(** C6. For a certificate that parses, the key length reported is the
    bit length of the modulus of an RSA key (2048 bits give the text
    2048) and the bit size the curve declares for an ECDSA key (256 gives
    256); with any other kind of key the loop stops with an error, which
    [collectTrustStoreMetrics] returns to its caller. *)
Theorem C6_key_length (c : Collector) (svc : Client) (ts : TrustStore)
        (pemData : list Byte.byte) (metrics : list Metric) (st : State)
        (block : Block) (rest : list Byte.byte) (cert : Certificate) :
  pem_Decode pemData = (Some block, rest) ->
  Type_ block = "CERTIFICATE" ->
  x509_ParseCertificate (Bytes block) = Ok cert ->
  match PublicKey_ cert with
  | rsa_PublicKey N _ =>
      certificateLoop ts pemData metrics st
      = certificateLoop ts rest
          (metrics ++ certificateMetrics ts cert (BitLen N)) st
      /\ keyLengthLabels (certificateMetrics ts cert (BitLen N))
         = [Some (Itoa (BitLen N))]
      /\ (forall n, 0 < n -> 2 ^ (n - 1) <= N < 2 ^ n -> BitLen N = n)
      /\ (2 ^ 2047 <= N < 2 ^ 2048 ->
          keyLengthLabels (certificateMetrics ts cert (BitLen N))
          = [Some "2048"])
  | ecdsa_PublicKey Curve _ _ =>
      certificateLoop ts pemData metrics st
      = certificateLoop ts rest
          (metrics ++ certificateMetrics ts cert (BitSize Curve)) st
      /\ keyLengthLabels (certificateMetrics ts cert (BitSize Curve))
         = [Some (Itoa (BitSize Curve))]
      /\ (BitSize Curve = 256 ->
          keyLengthLabels (certificateMetrics ts cert (BitSize Curve))
          = [Some "256"])
  | _ =>
      certificateLoop ts pemData metrics st
      = ((metrics, Some "unknown public key type"), st)
      /\ (forall w w' ms logs,
             fetchBundle svc ts w = (Ok pemData, w') ->
             collectTrustStoreMetrics c svc ts ms {| world := w; logged := logs |}
             = ((ms ++ trustStoreMetrics c ts, Some "unknown public key type"),
                {| world := w'; logged := logs |}))
  end.
Proof.
  intros Hdecode Htype Hparse.
  destruct (pem_Decode_nonempty _ _ _ Hdecode) as (b & data & ->).
  assert (Hloop : certificateLoop ts (b :: data) metrics st =
                  match keyLength (PublicKey_ cert) with
                  | Err err => ((metrics, Some err), st)
                  | Ok k =>
                      certificateLoop ts rest
                        (metrics ++ certificateMetrics ts cert k) st
                  end).
  { rewrite certificateLoop_step, Hdecode, Htype, String.eqb_refl, Hparse.
    destruct (keyLength (PublicKey_ cert)); [| reflexivity].
    now rewrite appendCertificate_app. }
  assert (Hother : keyLength (PublicKey_ cert) = Err "unknown public key type" ->
                   forall w w' ms logs,
                     fetchBundle svc ts w = (Ok (b :: data), w') ->
                     collectTrustStoreMetrics c svc ts ms
                       {| world := w; logged := logs |}
                     = ((ms ++ trustStoreMetrics c ts,
                         Some "unknown public key type"),
                        {| world := w'; logged := logs |})).
  { intros Hkey w w' ms logs Hfetch.
    rewrite collectTrustStoreMetrics_spec. cbn [world logged].
    rewrite Hfetch, pemBlocks_step, Hdecode. cbn [extract].
    unfold isCertificateBlock.
    rewrite Htype, String.eqb_refl, Hparse, Hkey.
    now rewrite !app_nil_r. }
  destruct (PublicKey_ cert) as [N E | Curve X Y | key |] eqn:Hpub;
    cbn [keyLength] in Hloop, Hother.
  - split; [exact Hloop | split; [reflexivity | split]].
    + intros n Hn Hrange. now apply BitLen_bits.
    + intros Hrange. rewrite (BitLen_bits N 2048); [reflexivity | lia |].
      exact Hrange.
  - split; [exact Hloop | split; [reflexivity |]].
    intros ->. reflexivity.
  - split; [exact Hloop | now apply Hother].
  - split; [exact Hloop | now apply Hother].
Qed.

(** C7. The loop takes the next PEM block until [pem.Decode] finds none,
    and ends without error on what is left; a block of another type
    than CERTIFICATE is skipped without error; a certificate block that
    does not parse is logged and skipped, and the loop goes on with the
    rest. A bundle of three blocks, two certificate blocks that parse
    (with RSA or ECDSA keys) and one block of another type, in any
    order, yields exactly the two certificate facts. *)
Theorem C7_pem_stream_decoding (ts : TrustStore) (pemData : list Byte.byte)
        (metrics : list Metric) (st : State) :
  (forall rest,
      pem_Decode pemData = (None, rest) ->
      certificateLoop ts pemData metrics st = ((metrics, None), st))
  /\ (forall block rest,
         pem_Decode pemData = (Some block, rest) ->
         Type_ block <> "CERTIFICATE" ->
         certificateLoop ts pemData metrics st
         = certificateLoop ts rest metrics st)
  /\ (forall block rest err,
         pem_Decode pemData = (Some block, rest) ->
         Type_ block = "CERTIFICATE" ->
         x509_ParseCertificate (Bytes block) = Err err ->
         certificateLoop ts pemData metrics st
         = certificateLoop ts rest metrics
             (logging st ["Error parsing certificate: " ++ err]%string))
  /\ (forall block1 block2 cert1 cert2 k1 k2,
         List.length (pemBlocks pemData) = 3%nat ->
         filter isCertificateBlock (pemBlocks pemData) = [block1; block2] ->
         x509_ParseCertificate (Bytes block1) = Ok cert1 ->
         x509_ParseCertificate (Bytes block2) = Ok cert2 ->
         keyLength (PublicKey_ cert1) = Ok k1 ->
         keyLength (PublicKey_ cert2) = Ok k2 ->
         certificateLoop ts pemData metrics st
         = ((metrics ++ certificateMetrics ts cert1 k1
                     ++ certificateMetrics ts cert2 k2, None), st)
         /\ List.length (filter (fun m => Desc_eqb (desc m) certificateInfo)
                                (certificateMetrics ts cert1 k1
                                 ++ certificateMetrics ts cert2 k2)) = 2%nat).
Proof.
  split; [| split; [| split]].
  - intros rest Hdecode. rewrite certificateLoop_step, Hdecode.
    now destruct pemData.
  - intros block rest Hdecode Htype.
    destruct (pem_Decode_nonempty _ _ _ Hdecode) as (b & data & ->).
    rewrite certificateLoop_step, Hdecode.
    apply String.eqb_neq in Htype. now rewrite Htype.
  - intros block rest err Hdecode Htype Hparse.
    destruct (pem_Decode_nonempty _ _ _ Hdecode) as (b & data & ->).
    now rewrite certificateLoop_step, Hdecode, Htype, String.eqb_refl, Hparse.
  - intros block1 block2 cert1 cert2 k1 k2 Hlen Hfilter Hp1 Hp2 Hk1 Hk2.
    split; [| reflexivity].
    rewrite certificateLoop_extract.
    destruct (pemBlocks pemData) as [| b1 [| b2 [| b3 [| b4 blocks]]]];
      try discriminate.
    cbn [filter extract] in *.
    destruct (isCertificateBlock b1), (isCertificateBlock b2),
      (isCertificateBlock b3); inversion Hfilter; subst;
      rewrite Hp1, Hk1, Hp2, Hk2;
      now rewrite !app_nil_r, logging_nil.
Qed.

(** C9. Two runs of the extraction on the same bytes yield the same
    ordered sequence of certificate facts and the same error, whatever
    slice each run appends to and whatever state it starts in. *)
Theorem C9_extraction_deterministic (ts : TrustStore)
        (pemData : list Byte.byte) (metrics1 metrics2 : list Metric)
        (st1 st2 : State) :
  exists facts failure,
    fst (certificateLoop ts pemData metrics1 st1) = (metrics1 ++ facts, failure)
    /\ fst (certificateLoop ts pemData metrics2 st2)
       = (metrics2 ++ facts, failure)
    /\ fst (certificateLoop ts pemData (metrics1 ++ facts)
                            (snd (certificateLoop ts pemData metrics1 st1)))
       = ((metrics1 ++ facts) ++ facts, failure).
Proof.
  exists (fst (fst (extract ts (pemBlocks pemData)))),
         (snd (fst (extract ts (pemBlocks pemData)))).
  rewrite !certificateLoop_extract.
  destruct (extract ts (pemBlocks pemData)) as [[facts failure] lines].
  repeat split.
Qed.

End Certificates.

Section Publication.

Context `{Progress : PemDecodeProgress} `{Out : Outside}.

Import Publisher.

Variables (region0 : string) (arns : list string) (interval : Duration).

Lemma appendExporter_app (c : Collector) (cy : Cycle) :
  appendExporter c cy = collected cy ++ exporterMetrics c cy.
Proof.
  unfold appendExporter, exporterMetrics.
  destruct (success cy); now rewrite <- !app_assoc.
Qed.

Lemma scrape_appendExporter (c : Collector) (st : State) :
  fst (scrape c st)
  = set_metrics c (appendExporter c (fst (scrapeCollect c st))).
Proof.
  unfold scrape, bind, ret. now destruct (scrapeCollect c st).
Qed.

Lemma scrape_complete (c : Collector) (st : State) :
  sameSettings region0 arns interval c ->
  complete region0 arns interval
           (appendExporter c (fst (scrapeCollect c st))).
Proof.
  intros (Hi & Hr & Ha). exists (metrics c), st.
  rewrite scrape_appendExporter. cbn [metrics set_metrics].
  destruct c; cbn in *; now subst.
Qed.

Lemma invariant_initial (st : State) :
  invariant region0 arns interval (initial region0 arns interval st).
Proof.
  unfold initial, idle, New. rewrite scrape_appendExporter.
  constructor; cbn; try discriminate; try tauto.
  - repeat split.
  - constructor; [| constructor]. now apply scrape_complete.
Qed.

Ltac other_goroutine i j :=
  unfold set_collect in *; destruct (Nat.eqb_spec j i); subst.

Ltac projections :=
  cbn [outside collector mutex scraper collects published
       scrapeHolds collectHolds metrics set_metrics
       scrapeInterval region trustStoreARNs].

Ltac kept :=
  solve [ assumption | discriminate | reflexivity | exact I
        | intros; assumption | intros; discriminate | intros; eauto ].

Lemma invariant_scrapeStep (s s' : System) :
  invariant region0 arns interval s -> scrapeStep s = Some s' ->
  invariant region0 arns interval s'.
Proof.
  intros [Hscrape Hcollect Hranging Hreturned Hcurrent Hsettings Hpublished
                  Hcycle] Hstep.
  unfold scrapeStep in Hstep.
  destruct (scraper s) as [| cy | cy ms [| m pending] |] eqn:Hpc.
  - destruct (scrapeCollect (collector s) (outside s)) as [cy st'] eqn:Hcy.
    inversion Hstep; subst; clear Hstep.
    constructor; projections; try kept.
    exists (outside s). now rewrite Hcy.
  - destruct (mutex s) eqn:Hmutex; [discriminate |].
    inversion Hstep; subst; clear Hstep.
    constructor; projections; try kept.
    + intros i Hi. apply Hcollect in Hi. discriminate.
    + split; [exact Hcycle |]. now rewrite appendExporter_app.
  - inversion Hstep; subst; clear Hstep.
    destruct Hcycle as [[st Hcy] Hms]. rewrite app_nil_r in Hms. subst ms.
    specialize (Hscrape eq_refl).
    constructor; projections; try kept.
    + intros i rest sent Hi.
      assert (Hholds : collectHolds (collects s i) = true) by now rewrite Hi.
      apply Hcollect in Hholds. congruence.
    + intros i sent Hi. right. eapply Hreturned; eassumption.
    + now left.
    + constructor; [| assumption]. subst cy. now apply scrape_complete.
  - inversion Hstep; subst; clear Hstep.
    destruct Hcycle as [Hcy Hms].
    constructor; projections; try kept.
    split; [exact Hcy |]. now rewrite <- app_assoc.
  - inversion Hstep; subst; clear Hstep.
    specialize (Hscrape eq_refl).
    constructor; projections; try kept.
    intros i Hi. apply Hcollect in Hi. congruence.
Qed.

Lemma invariant_collectStep (i : nat) (s s' : System) :
  invariant region0 arns interval s -> collectStep i s = Some s' ->
  invariant region0 arns interval s'.
Proof.
  intros [Hscrape Hcollect Hranging Hreturned Hcurrent Hsettings Hpublished
                  Hcycle] Hstep.
  unfold collectStep in Hstep.
  destruct (collects s i) as [| | [| m rest] sent | sent] eqn:Hpc;
    [| | | | discriminate].
  - destruct (mutex s) eqn:Hmutex; [discriminate |].
    inversion Hstep; subst; clear Hstep.
    constructor; projections; try kept.
    + intros Hs. apply Hscrape in Hs. discriminate.
    + intros j Hj. other_goroutine i j; [reflexivity |].
      apply Hcollect in Hj. discriminate.
    + intros j rest sent Hj. other_goroutine i j; [discriminate |].
      eapply Hranging; eassumption.
    + intros j sent Hj. other_goroutine i j; [discriminate |].
      eapply Hreturned; eassumption.
  - inversion Hstep; subst; clear Hstep.
    assert (Hi : mutex s = Some (CollectGoroutine i))
      by (apply Hcollect; now rewrite Hpc).
    constructor; projections; try kept.
    + intros j Hj. other_goroutine i j; [assumption | now apply Hcollect].
    + intros j rest sent Hj. other_goroutine i j.
      * now inversion Hj.
      * eapply Hranging; eassumption.
    + intros j sent Hj. other_goroutine i j; [discriminate |].
      eapply Hreturned; eassumption.
  - inversion Hstep; subst; clear Hstep.
    assert (Hi : mutex s = Some (CollectGoroutine i))
      by (apply Hcollect; now rewrite Hpc).
    pose proof (Hranging i [] sent Hpc) as Hsent. rewrite app_nil_r in Hsent.
    constructor; projections; try kept.
    + intros Hs. apply Hscrape in Hs. congruence.
    + intros j Hj. other_goroutine i j; [discriminate |].
      apply Hcollect in Hj. congruence.
    + intros j rest sent' Hj. other_goroutine i j; [discriminate |].
      eapply Hranging; eassumption.
    + intros j sent' Hj. other_goroutine i j.
      * inversion Hj; subst. exact Hcurrent.
      * eapply Hreturned; eassumption.
  - inversion Hstep; subst; clear Hstep.
    assert (Hi : mutex s = Some (CollectGoroutine i))
      by (apply Hcollect; now rewrite Hpc).
    pose proof (Hranging i (m :: rest) sent Hpc) as Hsent.
    constructor; projections; try kept.
    + intros j Hj. other_goroutine i j; [assumption | now apply Hcollect].
    + intros j rest' sent' Hj. other_goroutine i j.
      * inversion Hj; subst. now rewrite <- app_assoc.
      * eapply Hranging; eassumption.
    + intros j sent' Hj. other_goroutine i j; [discriminate |].
      eapply Hreturned; eassumption.
Qed.

Lemma invariant_reachable (st : State) (s : System) :
  reachable (initial region0 arns interval st) s ->
  invariant region0 arns interval s.
Proof.
  induction 1 as [| s s' _ IH [[| i] Hstep]].
  - apply invariant_initial.
  - eapply invariant_scrapeStep; eassumption.
  - eapply invariant_collectStep; eassumption.
Qed.

(** C2. In every state the system can reach, whatever the interleaving
    of the statements of [scrape] and of any number of [Collect] calls,
    a [Collect] that has returned has sent exactly one complete snapshot,
    one of the values [c.metrics] has had; a [Collect] in its loop has
    sent a prefix of the current [c.metrics], which is a complete
    snapshot and cannot change before it has sent the rest; and
    [c.metrics] never holds anything but a complete snapshot. *)
Theorem C2_collect_reads_one_snapshot (st : State) (s : System) :
  reachable (initial region0 arns interval st) s ->
  Forall (complete region0 arns interval) (published s)
  /\ In (metrics (collector s)) (published s)
  /\ forall i,
      match collects s i with
      | CollectReturned sent =>
          In sent (published s) /\ complete region0 arns interval sent
      | CollectRanging rest sent =>
          sent ++ rest = metrics (collector s)
          /\ mutex s = Some (CollectGoroutine i)
          /\ scrapeHolds (scraper s) = false
      | CollectStart | CollectLocked => True
      end.
Proof.
  intros Hreach. apply invariant_reachable in Hreach as Hinv.
  destruct Hinv as [Hscrape Hcollect Hranging Hreturned Hcurrent Hsettings
                           Hpublished Hcycle].
  split; [exact Hpublished | split; [exact Hcurrent |]].
  intros i. destruct (collects s i) as [| | rest sent | sent] eqn:Hpc;
    try exact I.
  - assert (Hi : mutex s = Some (CollectGoroutine i))
      by (apply Hcollect; now rewrite Hpc).
    split; [now apply (Hranging i) | split; [exact Hi |]].
    destruct (scrapeHolds (scraper s)); [| reflexivity].
    specialize (Hscrape eq_refl). congruence.
  - pose proof (Hreturned i sent Hpc) as Hin. split; [exact Hin |].
    rewrite Forall_forall in Hpublished. now apply Hpublished.
Qed.

Lemma run_reachable (schedule : list Goroutine) :
  forall s0 s s', reachable s0 s -> run schedule s = Some s' -> reachable s0 s'.
Proof.
  induction schedule as [| g schedule IH]; intros s0 s s' Hreach Hrun.
  - inversion Hrun; now subst.
  - cbn [run] in Hrun. destruct (perform g s) as [s1 |] eqn:Hg; [| discriminate].
    apply (IH s0 s1 s'); [| exact Hrun].
    eapply reachable_step; [exact Hreach |]. now exists g.
Qed.

End Publication.

(** * The rest of the collector *)

(** [Describe], [backgroundScrape] and the registration in [cmd.Run],
    and further properties of [scrape], [collectTrustStoreMetrics] and
    [Collect]. *)


Section Rest.

Context `{Progress : PemDecodeProgress} `{Out : Outside}.


(** The loop [for range ticker.C { c.scrape() }] over the ticks it
    receives. *)
Fixpoint tickerLoop (ticks : nat) (c : Collector) : M Collector :=
  match ticks with
  | O => ret c
  | S ticks => c <- scrape c ;; tickerLoop ticks c
  end.

(** [backgroundScrape] up to a number of received ticks.
    [time.NewTicker(interval)] panics when the interval is not positive,
    which ends the process: the result is then [None]. *)
Definition backgroundScrape (c : Collector) (interval : Duration) (ticks : nat)
  : M (option Collector) :=
  if interval <=? 0 then ret None
  else c <- tickerLoop ticks c ;; ret (Some c).

(** The certificate facts of a list of certificates with their key
    lengths. *)
Definition factsOf (certs : list (TrustStore * Certificate * Z)) : list Metric :=
  flat_map (fun '(ts, cert, k) => certificateMetrics ts cert k) certs.

(** The number of samples of a descriptor in a snapshot. *)
Definition countOf (d : Desc) (snapshot : list Metric) : nat :=
  List.length (filter (fun m => Desc_eqb (desc m) d) snapshot).

(** A trust store the enumeration of the cycle returned. *)
Definition enumerated (c : Collector) (st : State) (ts : TrustStore) : Prop :=
  match fst (enumeration c st) with
  | Some (_, trustStores) => In ts trustStores
  | None => False
  end.

(** *** Describe *)



(** *** Cycles *)

Lemma trustStoreLoop_set_metrics (c : Collector) (ms : list Metric)
      (svc : Client) (trustStores : list TrustStore) :
  forall (metrics : list Metric) (success : bool) (st : State),
    trustStoreLoop (set_metrics c ms) svc trustStores metrics success st
    = trustStoreLoop c svc trustStores metrics success st.
Proof.
  induction trustStores as [| ts trustStores IH]; intros metrics success st;
    [reflexivity |].
  cbn [trustStoreLoop]. unfold bind at 1 3.
  change (collectTrustStoreMetrics (set_metrics c ms) svc ts metrics st)
    with (collectTrustStoreMetrics c svc ts metrics st).
  destruct (collectTrustStoreMetrics c svc ts metrics st)
    as [[metrics1 [err |]] st1].
  - unfold bind, log_Print. apply IH.
  - apply IH.
Qed.

Lemma scrapeCollect_set_metrics (c : Collector) (ms : list Metric) (st : State) :
  scrapeCollect (set_metrics c ms) st = scrapeCollect c st.
Proof.
  rewrite !scrapeCollect_spec. unfold collection, enumeration.
  change (cfgOpts (set_metrics c ms)) with (cfgOpts c).
  change (input (set_metrics c ms)) with (input c).
  destruct (call (config_LoadDefaultConfig (cfgOpts c)) _) as [[cfg | err] st1];
    [| reflexivity].
  destruct (call (DescribeTrustStores (NewFromConfig cfg) (input c)) st1)
    as [[result | err] st2]; [| reflexivity].
  now rewrite trustStoreLoop_set_metrics.
Qed.

Lemma scrape_settings (c : Collector) (st : State) :
  scrapeInterval (fst (scrape c st)) = scrapeInterval c
  /\ region (fst (scrape c st)) = region c
  /\ trustStoreARNs (fst (scrape c st)) = trustStoreARNs c.
Proof.
  unfold scrape, bind, ret. destruct (scrapeCollect c st). now cbn.
Qed.

Lemma scrape_set_metrics (c : Collector) (ms : list Metric) (st : State) :
  scrape (set_metrics c ms) st = scrape c st.
Proof.
  unfold scrape, bind, ret. rewrite scrapeCollect_set_metrics.
  destruct (scrapeCollect c st) as [cy st']. reflexivity.
Qed.

(** X2. What a cycle publishes, logs and does to the world does not
    depend on the snapshot published before: [scrape] starts from a nil
    slice and replaces [c.metrics], so nothing of an earlier cycle stays
    in a snapshot unless the cycle collected it again. The three settings
    of the collector are never changed. *)
Theorem X2_scrape_replaces_the_snapshot (c : Collector) (ms : list Metric)
        (st : State) :
  scrape (set_metrics c ms) st = scrape c st
  /\ scrapeInterval (fst (scrape c st)) = scrapeInterval c
  /\ region (fst (scrape c st)) = region c
  /\ trustStoreARNs (fst (scrape c st)) = trustStoreARNs c.
Proof.
  split; [apply scrape_set_metrics | apply scrape_settings].
Qed.

Lemma scrape_is_set_metrics (c : Collector) (st : State) :
  fst (scrape c st) = set_metrics c (metrics (fst (scrape c st))).
Proof.
  unfold scrape, bind, ret. destruct (scrapeCollect c st). reflexivity.
Qed.

Lemma tickerLoop_snoc (ticks : nat) :
  forall (c : Collector) (st : State),
    tickerLoop (S ticks) c st
    = scrape (fst (tickerLoop ticks c st)) (snd (tickerLoop ticks c st)).
Proof.
  induction ticks as [| ticks IH]; intros c st.
  - cbn. unfold bind, ret. now destruct (scrape c st).
  - change (tickerLoop (S (S ticks)) c st)
      with (let (c1, st1) := scrape c st in tickerLoop (S ticks) c1 st1).
    change (tickerLoop (S ticks) c st)
      with (let (c1, st1) := scrape c st in tickerLoop ticks c1 st1).
    destruct (scrape c st) as [c1 st1]. apply IH.
Qed.

Lemma tickerLoop_is_set_metrics (ticks : nat) :
  forall (c : Collector) (st : State),
    fst (tickerLoop ticks c st)
    = set_metrics c (metrics (fst (tickerLoop ticks c st))).
Proof.
  induction ticks as [| ticks IH]; intros c st.
  - now destruct c.
  - rewrite tickerLoop_snoc, scrape_is_set_metrics, IH. reflexivity.
Qed.

(** X3. With a positive interval, [backgroundScrape] runs one cycle per
    tick, one after the other, and after each tick the collector is what
    a single [scrape] of the collector [New] built gives in the state the
    cycles before left: its settings are unchanged and its snapshot is
    the last cycle's alone. Before the first tick it is unchanged. *)
Theorem X3_one_cycle_per_tick (c : Collector) (interval : Duration)
        (ticks : nat) (st : State) :
  0 < interval ->
  backgroundScrape c interval 0 st = (Some c, st)
  /\ backgroundScrape c interval (S ticks) st
     = (Some (fst (scrape c (snd (tickerLoop ticks c st)))),
        snd (scrape c (snd (tickerLoop ticks c st))))
  /\ snd (tickerLoop ticks c st)
     = snd (backgroundScrape c interval ticks st).
Proof.
  intros Hpos. unfold backgroundScrape.
  destruct (Z.leb_spec interval 0) as [Hle | _]; [lia |].
  split; [reflexivity | split].
  - unfold bind at 1. rewrite tickerLoop_snoc.
    rewrite (tickerLoop_is_set_metrics ticks c st), scrape_set_metrics.
    unfold ret. now destruct (scrape c (snd (tickerLoop ticks c st))).
  - unfold bind, ret. now destruct (tickerLoop ticks c st).
Qed.

(** *** External calls *)

(** X8. [collectTrustStoreMetrics] makes its external calls in order and
    stops at the first that fails: after a failed bundle-location call
    no HTTP request is made, after a failed GET nothing is read or
    closed; once the GET has returned a response its body is closed, as
    the last external call, whether the read fails, the bundle holds an
    unsupported key or all goes well. The loop over the blocks makes no
    external call. *)
Theorem X8_external_calls_of_a_trust_store (c : Collector) (svc : Client)
        (ts : TrustStore) (ms : list Metric) (st : State) :
  match GetTrustStoreCaCertificatesBundle svc (TrustStoreArn ts) (world st) with
  | (Err err, w1) =>
      collectTrustStoreMetrics c svc ts ms st
      = ((ms ++ trustStoreMetrics c ts, Some err),
         {| world := w1; logged := logged st |})
  | (Ok Location, w1) =>
      match http_Get Location w1 with
      | (Err err, w2) =>
          collectTrustStoreMetrics c svc ts ms st
          = ((ms ++ trustStoreMetrics c ts, Some err),
             {| world := w2; logged := logged st |})
      | (Ok resp, w2) =>
          world (snd (collectTrustStoreMetrics c svc ts ms st))
          = Body_Close resp (snd (ioutil_ReadAll resp w2))
          /\ (forall err,
                 fst (ioutil_ReadAll resp w2) = Err err ->
                 fst (collectTrustStoreMetrics c svc ts ms st)
                 = (ms ++ trustStoreMetrics c ts, Some err))
      end
  end.
Proof.
  rewrite collectTrustStoreMetrics_spec. unfold fetchBundle.
  destruct (GetTrustStoreCaCertificatesBundle svc (TrustStoreArn ts) (world st))
    as [[Location | err] w1]; [| reflexivity].
  destruct (http_Get Location w1) as [[resp | err] w2]; [| reflexivity].
  destruct (ioutil_ReadAll resp w2) as [[pemData | err] w3]; cbn [fst snd].
  - destruct (extract ts (pemBlocks pemData)) as [[facts failure] lines].
    split; [reflexivity | discriminate].
  - split; [reflexivity |]. intros err' Herr. now inversion Herr.
Qed.

(** X9. A cycle stops calling AWS at the first failure of the
    enumeration: when configuration resolution fails, the only external
    calls of the cycle are the two readings of the clock around it, and
    the log gets two lines; when the enumeration call fails, no bundle is
    asked for. *)
Theorem X9_no_call_after_failed_enumeration (c : Collector) (st : State) :
  let start := fst (time_Now (world st)) in
  let w0 := snd (time_Now (world st)) in
  (forall err w1,
      config_LoadDefaultConfig (cfgOpts c) w0 = (Err err, w1) ->
      snd (scrape c st)
      = {| world := snd (time_Since start w1);
           logged := logged st
                     ++ ["Scraping metrics";
                         "Error creating AWS config: " ++ err]%string |})
  /\ (forall cfg w1 err w2,
         config_LoadDefaultConfig (cfgOpts c) w0 = (Ok cfg, w1) ->
         DescribeTrustStores (NewFromConfig cfg) (input c) w1 = (Err err, w2) ->
         snd (scrape c st)
         = {| world := snd (time_Since start w2);
              logged := logged st
                        ++ ["Scraping metrics";
                            "Error describing trust stores: " ++ err]%string |}).
Proof.
  cbv zeta.
  assert (Hsnd : snd (scrape c st) = snd (scrapeCollect c st)).
  { unfold scrape, bind, ret. now destruct (scrapeCollect c st). }
  rewrite Hsnd, scrapeCollect_spec.
  unfold collection, enumeration, call, log_Print. cbn [world logged snd].
  destruct (time_Now (world st)) as [now0 w0]. cbn [fst snd world logged].
  split.
  - intros err w1 Hc. rewrite Hc. cbn [snd world logged].
    destruct (time_Since now0 w1). cbn [snd].
    now rewrite <- app_assoc.
  - intros cfg w1 err w2 Hc Hd. rewrite Hc. cbn [world logged].
    rewrite Hd. cbn [snd world logged].
    destruct (time_Since now0 w2). cbn [snd].
    now rewrite <- app_assoc.
Qed.

(** X10. A body that is empty, or in which [pem.Decode] finds no block
    (the status of the response is never looked at), is no error: the
    call returns nil, appends the three samples of the trust store and
    no certificate sample, and logs nothing. *)
Theorem X10_bundle_without_blocks (c : Collector) (svc : Client)
        (ts : TrustStore) (ms : list Metric) (st : State)
        (pemData : list Byte.byte) (w : World) :
  fetchBundle svc ts (world st) = (Ok pemData, w) ->
  pemData = [] \/ fst (pem_Decode pemData) = None ->
  collectTrustStoreMetrics c svc ts ms st
  = ((ms ++ trustStoreMetrics c ts, None),
     {| world := w; logged := logged st |}).
Proof.
  intros Hfetch Hnone.
  rewrite collectTrustStoreMetrics_spec, Hfetch, pemBlocks_step.
  assert (Hblocks : match pemData with
                    | [] => []
                    | _ :: _ =>
                        match pem_Decode pemData with
                        | (Some block, rest) => block :: pemBlocks rest
                        | (None, _) => []
                        end
                    end = []).
  { destruct pemData as [| b data]; [reflexivity |].
    destruct Hnone as [Hnil | Hnone]; [discriminate |].
    destruct (pem_Decode (b :: data)) as [[block |] rest];
      [discriminate | reflexivity]. }
  rewrite Hblocks. cbn [extract]. now rewrite !app_nil_r.
Qed.

(** *** The samples of a snapshot *)

Lemma factsOf_app (certs1 certs2 : list (TrustStore * Certificate * Z)) :
  factsOf (certs1 ++ certs2) = factsOf certs1 ++ factsOf certs2.
Proof. apply flat_map_app. Qed.

Lemma filter_factsOf (certs : list (TrustStore * Certificate * Z)) :
  filter (fun m => certificateLevel (desc m)) (factsOf certs) = factsOf certs
  /\ filter (fun m => trustStoreLevel (desc m)) (factsOf certs) = [].
Proof.
  induction certs as [| [[ts cert] k] certs [IHc IHt]]; [now split |].
  cbn [factsOf flat_map]. rewrite !filter_app. fold (factsOf certs).
  rewrite IHc, IHt. now split.
Qed.

(** The facts of an extraction are the samples of the certificates it
    accepted, each with the key length the switch gave it. *)
Lemma extract_factsOf (ts : TrustStore) (blocks : list Block) :
  exists certs,
    fst (fst (extract ts blocks)) = factsOf certs
    /\ Forall (fun '(ts', cert, k) =>
                 ts' = ts /\ keyLength (PublicKey_ cert) = Ok k) certs.
Proof.
  induction blocks as [| block blocks (certs & Hfacts & Hcerts)];
    cbn [extract]; [now exists [] |].
  destruct (isCertificateBlock block); [| now exists certs].
  destruct (x509_ParseCertificate (Bytes block)) as [cert | err].
  - destruct (keyLength (PublicKey_ cert)) as [k | err] eqn:Hk;
      [| now exists []].
    destruct (extract ts blocks) as [[facts failure] lines]. cbn [fst] in *.
    exists ((ts, cert, k) :: certs). split.
    + cbn [factsOf flat_map]. fold (factsOf certs). now rewrite Hfacts.
    + constructor; [now split | exact Hcerts].
  - destruct (extract ts blocks) as [[facts failure] lines]. now exists certs.
Qed.

(** What a call appends: the three samples of the trust store, then the
    samples of the certificates it accepted. *)
Lemma collectTrustStoreMetrics_added (c : Collector) (svc : Client)
      (ts : TrustStore) (st : State) :
  exists certs,
    fst (fst (collectTrustStoreMetrics c svc ts [] st))
    = trustStoreMetrics c ts ++ factsOf certs
    /\ Forall (fun '(ts', cert, k) =>
                 ts' = ts /\ keyLength (PublicKey_ cert) = Ok k) certs.
Proof.
  rewrite collectTrustStoreMetrics_spec.
  destruct (fetchBundle svc ts (world st)) as [[pemData | err] w].
  - destruct (extract_factsOf ts (pemBlocks pemData)) as (certs & Hf & Hc).
    destruct (extract ts (pemBlocks pemData)) as [[facts failure] lines].
    cbn [fst] in *. exists certs. now rewrite Hf.
  - exists []. split; [| constructor].
    cbn [fst factsOf flat_map app]. now rewrite app_nil_r.
Qed.

Lemma trustStoreLoop_samples (c : Collector) (svc : Client)
      (trustStores : list TrustStore) :
  forall st : State,
    let collected := fst (fst (trustStoreLoop c svc trustStores [] true st)) in
    filter (fun m => trustStoreLevel (desc m)) collected
    = flat_map (trustStoreMetrics c) trustStores
    /\ exists certs,
      filter (fun m => certificateLevel (desc m)) collected = factsOf certs
      /\ Forall (fun '(ts, cert, k) =>
                   In ts trustStores /\ keyLength (PublicKey_ cert) = Ok k)
                certs.
Proof.
  induction trustStores as [| ts trustStores IH]; intros st; cbv zeta.
  - split; [reflexivity |]. now exists [].
  - cbn [trustStoreLoop]. unfold bind.
    destruct (collectTrustStoreMetrics_added c svc ts st)
      as (certs & Hadded & Hcerts).
    destruct (collectTrustStoreMetrics c svc ts [] st)
      as [[added failure] st1]. cbn [fst] in Hadded. subst added.
    assert (Hgoal : forall ok st2,
               let collected :=
                 fst (fst (trustStoreLoop
                             c svc trustStores
                             (trustStoreMetrics c ts ++ factsOf certs) ok st2)) in
               filter (fun m => trustStoreLevel (desc m)) collected
               = flat_map (trustStoreMetrics c) (ts :: trustStores)
               /\ exists certs',
                 filter (fun m => certificateLevel (desc m)) collected
                 = factsOf certs'
                 /\ Forall (fun '(ts', cert, k) =>
                              In ts' (ts :: trustStores)
                              /\ keyLength (PublicKey_ cert) = Ok k) certs').
    { intros ok st2. cbv zeta. rewrite trustStoreLoop_frame.
      destruct (IH st2) as (Hts & certs2 & Hfacts & Hcerts2).
      destruct (trustStoreLoop c svc trustStores [] true st2)
        as [[added ok'] st3]. cbn [fst] in *.
      destruct (filter_factsOf certs) as [Hfc Hft].
      rewrite !filter_app, Hts, Hfacts, Hfc, Hft. split; [reflexivity |].
      exists (certs ++ certs2). split; [now rewrite factsOf_app |].
      apply Forall_app. split.
      - eapply Forall_impl; [| exact Hcerts].
        intros [[ts' cert] k] [-> Hk]. split; [now left | exact Hk].
      - eapply Forall_impl; [| exact Hcerts2].
        intros [[ts' cert] k] [Hin Hk]. split; [now right | exact Hk]. }
    destruct failure as [err |]; [unfold log_Print |]; apply Hgoal.
Qed.

Lemma countOf_certificates (d : Desc) (snapshot : list Metric)
      (certs : list (TrustStore * Certificate * Z)) :
  certificateLevel d = true ->
  filter (fun m => certificateLevel (desc m)) snapshot = factsOf certs ->
  countOf d snapshot = List.length certs.
Proof.
  intros Hd Hfilter. unfold countOf.
  assert (Hsame : filter (fun m => Desc_eqb (desc m) d) snapshot
                  = filter (fun m => Desc_eqb (desc m) d)
                           (filter (fun m => certificateLevel (desc m))
                                   snapshot)).
  { clear Hfilter. induction snapshot as [| m snapshot IH]; [reflexivity |].
    cbn [filter].
    destruct (certificateLevel (desc m)) eqn:Hm; cbn [filter].
    - now rewrite IH.
    - destruct (Desc_eqb (desc m) d) eqn:Heq; [| exact IH].
      destruct (desc m), d; discriminate. }
  rewrite Hsame, Hfilter. clear Hsame Hfilter snapshot.
  induction certs as [| [[ts cert] k] certs IH]; [reflexivity |].
  cbn [factsOf flat_map]. fold (factsOf certs). rewrite filter_app, length_app, IH.
  destruct d; try discriminate; reflexivity.
Qed.

Lemma collected_samples (c : Collector) (st : State) :
  let collected := collected (fst (scrapeCollect c st)) in
  filter (fun m => trustStoreLevel (desc m)) collected
  = match fst (enumeration c st) with
    | Some (_, trustStores) => flat_map (trustStoreMetrics c) trustStores
    | None => []
    end
  /\ exists certs,
    filter (fun m => certificateLevel (desc m)) collected = factsOf certs
    /\ Forall (fun '(ts, cert, k) =>
                 enumerated c st ts /\ keyLength (PublicKey_ cert) = Ok k)
              certs.
Proof.
  cbv zeta. unfold enumerated.
  replace (collected (fst (scrapeCollect c st)))
    with (fst (fst (collection c st)))
    by now rewrite <- collection_cycle.
  unfold collection.
  destruct (enumeration c st) as [[[svc trustStores] |] st']; cbn [fst].
  - destruct (trustStoreLoop_samples c svc trustStores st')
      as (Hts & certs & Hfacts & Hcerts).
    split; [exact Hts |]. now exists certs.
  - split; [reflexivity |]. now exists [].
Qed.

Lemma snapshot_levels (c : Collector) (st : State) :
  filter (fun m => trustStoreLevel (desc m)) (metrics (fst (scrape c st)))
  = filter (fun m => trustStoreLevel (desc m))
           (collected (fst (scrapeCollect c st)))
  /\ filter (fun m => certificateLevel (desc m)) (metrics (fst (scrape c st)))
     = filter (fun m => certificateLevel (desc m))
              (collected (fst (scrapeCollect c st))).
Proof.
  rewrite scrape_snapshot, !filter_app. unfold exporterMetrics.
  destruct (success (fst (scrapeCollect c st))); cbn [filter desc
    MustNewConstMetric trustStoreLevel certificateLevel];
    now rewrite !app_nil_r.
Qed.

(** X11. The certificate samples of every snapshot come in triples, one
    per accepted certificate: a certificate_info, a certificate_not_before
    and a certificate_expiry sample in a row, built from the same
    certificate and the same trust store, which is one of the enumerated
    ones, the key length being the one its key kind gives. A snapshot so
    has as many samples of each of the three kinds. *)
Theorem X11_certificate_samples_in_triples (c : Collector) (st : State) :
  let snapshot := metrics (fst (scrape c st)) in
  exists certs,
    filter (fun m => certificateLevel (desc m)) snapshot = factsOf certs
    /\ Forall (fun '(ts, cert, k) =>
                 enumerated c st ts /\ keyLength (PublicKey_ cert) = Ok k)
              certs
    /\ countOf certificateInfo snapshot = List.length certs
    /\ countOf certificateNotBefore snapshot = List.length certs
    /\ countOf certificateExpiry snapshot = List.length certs.
Proof.
  cbv zeta.
  destruct (collected_samples c st) as (_ & certs & Hfacts & Hcerts).
  destruct (snapshot_levels c st) as [_ Hlevel]. rewrite <- Hlevel in Hfacts.
  exists certs. split; [exact Hfacts | split; [exact Hcerts |]].
  repeat split; now apply countOf_certificates.
Qed.

(** X12. The trust-store samples of a snapshot are exactly the info,
    certificates and revoked-entries samples of each enumerated trust
    store, in the order of the enumeration, with the counts the API
    reported: a trust store whose bundle could not be fetched or
    extracted has them like any other, and the number of certificates
    decoded does not enter. There is none when the enumeration failed. *)
Theorem X12_trust_store_samples (c : Collector) (st : State) :
  let snapshot := metrics (fst (scrape c st)) in
  filter (fun m => trustStoreLevel (desc m)) snapshot
  = match fst (enumeration c st) with
    | Some (_, trustStores) => flat_map (trustStoreMetrics c) trustStores
    | None => []
    end.
Proof.
  cbv zeta. destruct (snapshot_levels c st) as [-> _].
  apply (collected_samples c st).
Qed.

(** *** The log *)

Lemma collectTrustStoreMetrics_logged (c : Collector) (svc : Client)
      (ts : TrustStore) (ms : list Metric) (st : State) :
  exists lines,
    logged (snd (collectTrustStoreMetrics c svc ts ms st)) = logged st ++ lines.
Proof.
  rewrite collectTrustStoreMetrics_spec.
  destruct (fetchBundle svc ts (world st)) as [[pemData | err] w].
  - destruct (extract ts (pemBlocks pemData)) as [[facts failure] lines].
    now exists lines.
  - exists []. cbn [snd logged]. now rewrite app_nil_r.
Qed.

Lemma trustStoreLoop_logged (c : Collector) (svc : Client)
      (trustStores : list TrustStore) :
  forall (ms : list Metric) (ok : bool) (st : State),
  exists lines,
    logged (snd (trustStoreLoop c svc trustStores ms ok st))
    = logged st ++ lines.
Proof.
  induction trustStores as [| ts trustStores IH]; intros ms ok st.
  - exists []. cbn. now rewrite app_nil_r.
  - cbn [trustStoreLoop]. unfold bind.
    destruct (collectTrustStoreMetrics_logged c svc ts ms st) as [lines1 H1].
    destruct (collectTrustStoreMetrics c svc ts ms st)
      as [[ms1 [err |]] st1]; cbn [snd] in H1.
    + unfold log_Print.
      destruct (IH ms1 false
                   {| world := world st1;
                      logged := logged st1
                                ++ [("Error collecting metrics for trust store "
                                     ++ TrustStoreArn ts ++ ": " ++ err)%string] |})
        as [lines2 H2].
      rewrite H2. cbn [logged]. rewrite H1.
      eexists. now rewrite <- !app_assoc.
    + destruct (IH ms1 ok st1) as [lines2 H2]. rewrite H2, H1.
      eexists. now rewrite <- app_assoc.
Qed.

Lemma scrape_logged (c : Collector) (st : State) :
  logged (snd (scrape c st)) = logged (snd (collection c st)).
Proof.
  unfold scrape, bind, ret. rewrite scrapeCollect_spec.
  destruct (collection c st) as [[ms ok] st'].
  destruct (time_Since _ _). reflexivity.
Qed.

Lemma enumeration_logged (c : Collector) (st : State) :
  exists lines,
    logged (snd (enumeration c st))
    = logged st ++ "Scraping metrics" :: lines.
Proof.
  unfold enumeration, call, log_Print. cbn [world logged snd].
  destruct (time_Now (world st)) as [now0 w0]. cbn [world logged snd].
  destruct (config_LoadDefaultConfig (cfgOpts c) w0) as [[cfg | err] w1];
    cbn [world logged snd].
  - destruct (DescribeTrustStores (NewFromConfig cfg) (input c) w1)
      as [[result | err] w2]; cbn [world logged snd];
      eexists; now rewrite <- app_assoc.
  - eexists. now rewrite <- app_assoc.
Qed.

(** X13. A cycle only adds lines to the log, the first of them
    [Scraping metrics]; and when the collection of a trust store returns
    an error, the log of the cycle has the line that names the trust
    store and the error. *)
Theorem X13_failures_are_logged (c : Collector) (st : State) :
  (exists lines,
      logged (snd (scrape c st)) = logged st ++ "Scraping metrics" :: lines)
  /\ forall svc before ts after st0 err,
      enumeration c st = (Some (svc, before ++ ts :: after), st0) ->
      snd (fst (collectTrustStoreMetrics
                  c svc ts (fst (fst (reaching c svc before st0)))
                  (snd (reaching c svc before st0)))) = Some err ->
      In ("Error collecting metrics for trust store "
          ++ TrustStoreArn ts ++ ": " ++ err)%string
         (logged (snd (scrape c st))).
Proof.
  rewrite scrape_logged. split.
  - destruct (enumeration_logged c st) as [lines1 H1].
    unfold collection.
    destruct (enumeration c st) as [[[svc trustStores] |] st']; cbn [snd] in H1.
    + destruct (trustStoreLoop_logged c svc trustStores [] true st')
        as [lines2 H2].
      rewrite H2, H1. eexists. rewrite <- app_assoc. reflexivity.
    + cbn [snd]. now exists lines1.
  - intros svc before ts after st0 err Henum Herr.
    unfold collection. rewrite Henum, trustStoreLoop_app.
    unfold reaching in Herr.
    destruct (trustStoreLoop c svc before [] true st0) as [[m1 ok1] st1].
    cbn [fst snd] in Herr. cbn [trustStoreLoop]. unfold bind.
    destruct (collectTrustStoreMetrics c svc ts m1 st1) as [[m2 failure] st2].
    cbn [fst snd] in Herr. subst failure. unfold log_Print.
    destruct (trustStoreLoop_logged
                c svc after m2 false
                {| world := world st2;
                   logged := logged st2
                             ++ [("Error collecting metrics for trust store "
                                  ++ TrustStoreArn ts ++ ": " ++ err)%string] |})
      as [lines Hrest].
    rewrite Hrest. cbn [logged]. apply in_or_app. left.
    apply in_or_app. right. now left.
Qed.

(** *** Edge cases of the extraction and of the enumeration *)

(** X14. A bundle whose blocks are all certificate blocks that parse
    with an RSA or ECDSA key gives one fact per block, in the order of
    the bundle: no certificate is dropped or merged with another, two
    equal ones included, and the loop returns nil and logs nothing. *)
Theorem X14_one_fact_per_certificate (ts : TrustStore)
        (pemData : list Byte.byte) (ms : list Metric) (st : State)
        (certs : list (Certificate * Z)) :
  Forall2 (fun block '(cert, k) =>
             Type_ block = "CERTIFICATE"
             /\ x509_ParseCertificate (Bytes block) = Ok cert
             /\ keyLength (PublicKey_ cert) = Ok k)
          (pemBlocks pemData) certs ->
  certificateLoop ts pemData ms st
  = ((ms ++ flat_map (fun '(cert, k) => certificateMetrics ts cert k) certs,
      None), st)
  /\ countOf certificateInfo
             (flat_map (fun '(cert, k) => certificateMetrics ts cert k) certs)
     = List.length (pemBlocks pemData).
Proof.
  intros Hall. rewrite certificateLoop_extract.
  assert (Hextract :
            extract ts (pemBlocks pemData)
            = (flat_map (fun '(cert, k) => certificateMetrics ts cert k) certs,
               None, [])
            /\ countOf certificateInfo
                       (flat_map (fun '(cert, k) => certificateMetrics ts cert k)
                                 certs)
               = List.length (pemBlocks pemData)).
  { induction Hall as [| block [cert k] blocks certs (Htype & Hparse & Hkey) _
                         [IHe IHc]]; [now split |].
    cbn [extract]. unfold isCertificateBlock.
    rewrite Htype, String.eqb_refl, Hparse, Hkey, IHe. split; [reflexivity |].
    cbn [flat_map List.length]. unfold countOf in *.
    rewrite filter_app, length_app, IHc. reflexivity. }
  destruct Hextract as [-> Hcount]. split; [| exact Hcount].
  now rewrite logging_nil.
Qed.

(** X15. When the enumeration returns no trust store, the cycle makes no
    further AWS call, publishes the four exporter samples alone and
    reports success: an empty account and a failed enumeration differ
    in collector_success only. *)
Theorem X15_no_trust_store (c : Collector) (st : State) (svc : Client)
        (st0 : State) :
  enumeration c st = (Some (svc, []), st0) ->
  metrics (fst (scrape c st)) = exporterMetrics c (fst (scrapeCollect c st))
  /\ successValue (metrics (fst (scrape c st))) = [Float64OfInt 1]
  /\ snd (scrape c st)
     = {| world := snd (time_Since (fst (time_Now (world st))) (world st0));
          logged := logged st0 |}.
Proof.
  intros Henum.
  pose proof (collection_cycle c st) as Hcy.
  assert (Hcollection : collection c st = (([], true), st0)).
  { unfold collection. now rewrite Henum. }
  rewrite Hcollection in Hcy. inversion Hcy as [[Hcollected Hsuccess]].
  rewrite successValue_snapshot, scrape_snapshot, Hcollected, Hsuccess.
  split; [reflexivity | split; [reflexivity |]].
  unfold scrape, bind, ret. rewrite scrapeCollect_spec, Hcollection.
  destruct (time_Since _ _). reflexivity.
Qed.
End Rest.

(** ** The goroutines *)

Section Locking.

Context `{Progress : PemDecodeProgress} `{Out : Outside}.

Import Publisher.

(** X4. A [scrape] that is not interrupted takes eight steps (the
    collection, the lock, four appends, the assignment, the unlock) and
    leaves what the function [scrape] computes: the collector with the
    new snapshot, the world and the log after the collection, the mutex
    free. It waits only at its lock, when the mutex is held. *)
Theorem X4_scrape_goroutine_runs_scrape (s : System) :
  scraper s = ScrapeIdle ->
  (mutex s = None ->
   run (repeat ScrapeGoroutine 8) s
   = Some {| outside := snd (scrape (collector s) (outside s));
             collector := fst (scrape (collector s) (outside s));
             mutex := None;
             scraper := ScrapeIdle;
             collects := collects s;
             published :=
               metrics (fst (scrape (collector s) (outside s)))
               :: published s |})
  /\ (forall g, mutex s = Some g ->
                run (repeat ScrapeGoroutine 2) s = None
                /\ exists s', run [ScrapeGoroutine] s = Some s'
                              /\ collector s' = collector s
                              /\ mutex s' = mutex s).
Proof.
  intros Hidle. split.
  - intros Hfree. unfold scrape, bind, ret.
    cbn [repeat run perform]. unfold scrapeStep at 1. rewrite Hidle.
    destruct (scrapeCollect (collector s) (outside s)) as [cy st'].
    unfold scrapeStep at 1; cbn [scraper mutex]. rewrite Hfree.
    unfold exporterMetrics.
    do 6 (unfold scrapeStep at 1;
          cbn [scraper mutex outside collector collects published]).
    cbn [fst snd metrics set_metrics]. unfold appendExporter.
    destruct (success cy); reflexivity.
  - intros g Hheld. cbn [repeat run perform]. unfold scrapeStep at 1 3.
    rewrite Hidle.
    destruct (scrapeCollect (collector s) (outside s)) as [cy st'].
    unfold scrapeStep; cbn [scraper mutex]. rewrite Hheld.
    split; [reflexivity |]. eexists. split; [reflexivity |]. now split.
Qed.

Lemma collect_ranging_run (i : nat) (rest : list Metric) :
  forall (s : System) (sent : list Metric),
    collects s i = CollectRanging rest sent ->
    exists s',
      run (repeat (CollectGoroutine i) (List.length rest + 1)) s = Some s'
      /\ collects s' i = CollectReturned (sent ++ rest)
      /\ (forall j, j <> i -> collects s' j = collects s j)
      /\ mutex s' = None
      /\ collector s' = collector s
      /\ outside s' = outside s
      /\ published s' = published s
      /\ scraper s' = scraper s.
Proof.
  induction rest as [| m rest IH]; intros s sent Hpc.
  - cbn [List.length Nat.add repeat run perform]. unfold collectStep.
    rewrite Hpc. eexists. split; [reflexivity |].
    cbn [collects mutex collector outside published scraper].
    unfold set_collect. rewrite Nat.eqb_refl, app_nil_r.
    repeat split. intros j Hj. apply Nat.eqb_neq in Hj. now rewrite Hj.
  - cbn [List.length Nat.add repeat run perform]. unfold collectStep at 1.
    rewrite Hpc.
    match goal with
    | |- context [run _ ?s1] =>
        destruct (IH s1 (sent ++ [m])) as (s' & Hrun & Hi & Hj & Hrest)
    end.
    { cbn [collects]. unfold set_collect. now rewrite Nat.eqb_refl. }
    exists s'. split; [exact Hrun |].
    cbn [collects mutex collector outside published scraper] in *.
    rewrite <- app_assoc in Hi. split; [exact Hi |].
    split; [| exact Hrest].
    intros j Hne. rewrite (Hj j Hne). unfold set_collect.
    apply Nat.eqb_neq in Hne. now rewrite Hne.
Qed.

(** X5. A [Collect] that finds the mutex free and is not interrupted
    sends the metrics of [c.metrics], all of them and in their order,
    and returns with the mutex free; it changes neither [c.metrics] nor
    the world nor the log nor any other call. While the mutex is held it
    waits at its lock. *)
Theorem X5_collect_sends_the_snapshot (i : nat) (s : System) :
  collects s i = CollectStart ->
  (mutex s = None ->
   exists s',
     run (repeat (CollectGoroutine i)
                 (List.length (metrics (collector s)) + 3)) s = Some s'
     /\ collects s' i = CollectReturned (metrics (collector s))
     /\ (forall j, j <> i -> collects s' j = collects s j)
     /\ mutex s' = None
     /\ collector s' = collector s
     /\ outside s' = outside s
     /\ published s' = published s
     /\ scraper s' = scraper s)
  /\ (forall g, mutex s = Some g -> perform (CollectGoroutine i) s = None).
Proof.
  intros Hstart. split.
  - intros Hfree.
    replace (List.length (metrics (collector s)) + 3)%nat
      with (S (S (List.length (metrics (collector s)) + 1))) by lia.
    cbn [repeat run perform]. unfold collectStep at 1. rewrite Hstart, Hfree.
    unfold collectStep at 1. cbn [collects]. unfold set_collect at 1.
    rewrite Nat.eqb_refl.
    cbn [outside collector mutex scraper collects published].
    match goal with
    | |- context [run _ ?s1] =>
        destruct (collect_ranging_run i (metrics (collector s)) s1 [])
          as (s' & Hrun & Hi & Hj & Hrest)
    end.
    { cbn [collects]. unfold set_collect. now rewrite Nat.eqb_refl. }
    exists s'. split; [exact Hrun |].
    cbn [collects mutex collector outside published scraper] in *.
    split; [exact Hi |]. split; [| exact Hrest].
    intros j Hne. rewrite (Hj j Hne). unfold set_collect.
    apply Nat.eqb_neq in Hne. now rewrite Hne.
  - intros g Hheld. cbn [perform]. unfold collectStep.
    now rewrite Hstart, Hheld.
Qed.

(** X6. Mutual exclusion: in every state the system can reach from the
    collector [New] returns, at most one goroutine is between its
    [Lock] and its [Unlock], and it is the one the mutex is held for;
    when the mutex is free none is. *)
Theorem X6_mutual_exclusion (region0 : string) (arns : list string)
        (interval : Duration) (st : State) (s : System) :
  reachable (initial region0 arns interval st) s ->
  (scrapeHolds (scraper s) = true ->
   forall i, collectHolds (collects s i) = false)
  /\ (forall i j, collectHolds (collects s i) = true ->
                  collectHolds (collects s j) = true -> i = j)
  /\ (mutex s = None ->
      scrapeHolds (scraper s) = false
      /\ forall i, collectHolds (collects s i) = false).
Proof.
  intros Hreach. apply invariant_reachable in Hreach.
  destruct Hreach as [Hscrape Hcollect _ _ _ _ _ _].
  split; [| split].
  - intros Hs i. destruct (collectHolds (collects s i)) eqn:Hi; [| reflexivity].
    apply Hscrape in Hs. apply Hcollect in Hi. congruence.
  - intros i j Hi Hj. apply Hcollect in Hi. apply Hcollect in Hj. congruence.
  - intros Hfree. split.
    + destruct (scrapeHolds (scraper s)); [| reflexivity].
      specialize (Hscrape eq_refl). congruence.
    + intros i. destruct (collectHolds (collects s i)) eqn:Hi; [| reflexivity].
      apply Hcollect in Hi. congruence.
Qed.




End Locking.

(** * The properties in the example world *)

Import Example.

Lemma C3_witness :
  map desc
      (filter (fun m => exporterLevel (desc m))
              (metrics (fst (scrape (exporter "" []) (start healthy)))))
  = [exporterLastScrapeTimestamp; exporterScrapeDurationSeconds;
     exporterScrapeInterval; collectorSuccess].
Proof.
  exact (proj2 (C3_four_exporter_samples (exporter "" []) (start healthy))).
Defined.

(** Without credentials configuration resolution fails; with them and
    no permission the enumeration call fails. *)
Lemma C5_witness :
  (let snapshot :=
     metrics (fst (scrape (exporter "" []) (start noCredentials))) in
   snapshot
   = exporterMetrics (exporter "" [])
       (fst (scrapeCollect (exporter "" []) (start noCredentials)))
   /\ filter (fun m => trustStoreLevel (desc m) || certificateLevel (desc m))
             snapshot = []
   /\ successValue snapshot = [Float64OfInt 0])
  /\ (let snapshot :=
        metrics (fst (scrape (exporter "us-east-1" ["arn:b"])
                             (start accessDenied))) in
      snapshot
      = exporterMetrics (exporter "us-east-1" ["arn:b"])
          (fst (scrapeCollect (exporter "us-east-1" ["arn:b"])
                              (start accessDenied)))
      /\ filter (fun m => trustStoreLevel (desc m) || certificateLevel (desc m))
                snapshot = []
      /\ successValue snapshot = [Float64OfInt 0]).
Proof.
  split.
  - apply (C5_failed_enumeration (exporter "" []) (start noCredentials)).
    left. eexists. eexists. reflexivity.
  - apply (C5_failed_enumeration (exporter "us-east-1" ["arn:b"])
                                 (start accessDenied)).
    right. eexists. eexists. eexists. eexists. split; reflexivity.
Defined.

(** Trust store b is collected whole, and d has a certificate that does
    not parse, which is skipped: both calls return nil. *)
Lemma C8_witness :
  successValue
    (metrics (fst (scrape (exporter "" ["arn:b"; "arn:d"]) (start healthy))))
  = [Float64OfInt 1]
  /\ logged (snd (scrape (exporter "" ["arn:b"; "arn:d"]) (start healthy)))
     = ["Scraping metrics"; "Found 2 trust stores";
        "Error parsing certificate: x509: malformed certificate"].
Proof.
  split; [| reflexivity].
  apply (proj1 (C8_collector_success (exporter "" ["arn:b"; "arn:d"])
                                     (start healthy))).
  eexists. eexists. eexists. split; reflexivity.
Defined.

Lemma C10_witness :
  fst (config_LoadDefaultConfig (cfgOpts (exporter "" [])) (tick healthy))
  = Ok "eu-west-1"
  /\ cfgOpts (exporter "" []) = []
  /\ forall m,
      In m (metrics (fst (scrape (exporter "" []) (start healthy)))) ->
      desc m = trustStoreInfo ->
      nth_error (labelValues m) 2 = Some "".
Proof.
  split; [reflexivity |].
  apply (C10_region_label (exporter "" []) (start healthy)).
  reflexivity.
Defined.

Lemma C9_witness :
  exists facts failure,
    fst (certificateLoop storeC bundleC [] (start healthy)) = ([] ++ facts, failure)
    /\ fst (certificateLoop storeC bundleC
                            (trustStoreMetrics (exporter "" []) storeC)
                            (start noCredentials))
       = (trustStoreMetrics (exporter "" []) storeC ++ facts, failure)
    /\ fst (certificateLoop storeC bundleC ([] ++ facts)
                            (snd (certificateLoop storeC bundleC []
                                                  (start healthy))))
       = (([] ++ facts) ++ facts, failure).
Proof.
  exact (C9_extraction_deterministic
           storeC bundleC [] (trustStoreMetrics (exporter "" []) storeC)
           (start healthy) (start noCredentials)).
Defined.

Lemma C7_witness :
  certificateLoop storeB bundleB [] (start healthy)
  = (([] ++ certificateMetrics storeB rsaCertificate 2048
         ++ certificateMetrics storeB ecdsaCertificate 256, None),
     start healthy)
  /\ List.length
       (filter (fun m => Desc_eqb (desc m) certificateInfo)
               (certificateMetrics storeB rsaCertificate 2048
                ++ certificateMetrics storeB ecdsaCertificate 256)) = 2%nat.
Proof.
  apply (proj2 (proj2 (proj2 (C7_pem_stream_decoding
                                storeB bundleB [] (start healthy))))
           {| Type_ := "CERTIFICATE"; Bytes := [Byte.x01] |}
           {| Type_ := "CERTIFICATE"; Bytes := [Byte.x02] |}
           rsaCertificate ecdsaCertificate 2048 256);
    reflexivity.
Defined.

Lemma C6_witness :
  keyLengthLabels
    (certificateMetrics storeB rsaCertificate (BitLen (2 ^ 2047 + 1)))
  = [Some "2048"].
Proof.
  pose proof (C6_key_length (exporter "" []) "eu-west-1" storeB bundleB []
                            (start healthy)
                            {| Type_ := "CERTIFICATE"; Bytes := [Byte.x01] |}
                            [Byte.x02; Byte.x07; Byte.x01; Byte.x02;
                             Byte.x00; Byte.x00; Byte.x00]
                            rsaCertificate eq_refl eq_refl eq_refl) as Hkey.
  apply Hkey.
  split; [apply Z.leb_le | apply Z.ltb_lt]; vm_compute; reflexivity.
Defined.

(** Trust store a, whose bundle cannot be located, is the first of four:
    the flag is cleared and the other three are collected. *)
Lemma C4_witness :
  let c := exporter "" [] in
  let st := start healthy in
  let returned :=
    collectTrustStoreMetrics c "eu-west-1" storeA [] (snd (enumeration c st)) in
  let remaining :=
    trustStoreLoop c "eu-west-1" [storeB; storeC; storeD] [] true
      (logging (snd returned)
         ["Error collecting metrics for trust store arn:a: AccessDenied"]) in
  success (fst (scrapeCollect c st)) = false
  /\ successValue (metrics (fst (scrape c st))) = [Float64OfInt 0]
  /\ collected (fst (scrapeCollect c st))
     = fst (fst returned) ++ fst (fst remaining)
  /\ (forall ts', In ts' [storeB; storeC; storeD] ->
                 incl (trustStoreMetrics c ts') (fst (fst remaining))
                 /\ incl (trustStoreMetrics c ts')
                         (metrics (fst (scrape c st)))).
Proof.
  exact (C4_failure_does_not_stop_the_loop
           (exporter "" []) (start healthy) "eu-west-1"
           [] storeA [storeB; storeC; storeD]
           (snd (enumeration (exporter "" []) (start healthy)))
           "AccessDenied" eq_refl eq_refl).
Defined.

(** Trust store c, whose second certificate has an Ed25519 key, is the
    third of four. *)
Lemma C1_witness :
  let c := exporter "" [] in
  let st := start healthy in
  let reached :=
    reaching c "eu-west-1" [storeA; storeB] (snd (enumeration c st)) in
  let returned :=
    collectTrustStoreMetrics c "eu-west-1" storeC (fst (fst reached))
                             (snd reached) in
  let remaining :=
    trustStoreLoop c "eu-west-1" [storeD] [] true
      (logging (snd returned)
         ["Error collecting metrics for trust store arn:c: unknown public key type"]) in
  metrics (fst (scrape c st))
  = fst (fst reached)
    ++ (trustStoreMetrics c storeC
        ++ certificateMetrics storeC rsaCertificate 2048)
    ++ fst (fst remaining) ++ exporterMetrics c (fst (scrapeCollect c st))
  /\ successValue (metrics (fst (scrape c st))) = [Float64OfInt 0]
  /\ Forall (fun m => certificateLevel (desc m) = true)
            (certificateMetrics storeC rsaCertificate 2048).
Proof.
  exact (C1_failed_trust_store_samples
           (exporter "" []) (start healthy) "eu-west-1"
           [storeA; storeB] storeC [storeD]
           (snd (enumeration (exporter "" []) (start healthy)))
           "unknown public key type" eq_refl eq_refl).
Defined.

(** C1 as the specification states it, that a failing trust store
    leaves no sample in the snapshot, fails for trust store a, whose bundle-location call fails, and for trust
    store c, whose extraction meets an Ed25519 key: the snapshot has the
    info sample of each, and a certificate sample of c. *)
Lemma C1_counterexample :
  let c := exporter "" [] in
  let st := start healthy in
  let snapshot := metrics (fst (scrape c st)) in
  enumeration c st
  = (Some ("eu-west-1", [storeA; storeB; storeC; storeD]),
     snd (enumeration c st))
  /\ snd (fst (collectTrustStoreMetrics c "eu-west-1" storeA []
                                        (snd (enumeration c st))))
     = Some "AccessDenied"
  /\ In (MustNewConstMetric trustStoreInfo (Float64OfInt 1) ["arn:a"; "a"; ""])
        snapshot
  /\ ~ absent storeA snapshot
  /\ snd (fst (collectTrustStoreMetrics
                 c "eu-west-1" storeC
                 (fst (fst (reaching c "eu-west-1" [storeA; storeB]
                                     (snd (enumeration c st)))))
                 (snd (reaching c "eu-west-1" [storeA; storeB]
                                (snd (enumeration c st))))))
     = Some "unknown public key type"
  /\ In (MustNewConstMetric certificateExpiry (Float64OfInt 2000000000)
           ["arn:c"; "1"; "CN=Example Root"]) snapshot
  /\ ~ absent storeC snapshot
  /\ successValue snapshot = [Float64OfInt 0].
Proof.
  cbv zeta.
  assert (Ha : In (MustNewConstMetric trustStoreInfo (Float64OfInt 1)
                     ["arn:a"; "a"; ""])
                  (metrics (fst (scrape (exporter "" []) (start healthy))))).
  { vm_compute. left. reflexivity. }
  assert (Hc : In (MustNewConstMetric certificateExpiry
                     (Float64OfInt 2000000000)
                     ["arn:c"; "1"; "CN=Example Root"])
                  (metrics (fst (scrape (exporter "" []) (start healthy))))).
  { vm_compute. do 17 right. left. reflexivity. }
  split; [reflexivity |].
  split; [reflexivity |].
  split; [exact Ha |].
  split; [intros Habsent; specialize (Habsent _ Ha); discriminate |].
  split; [reflexivity |].
  split; [exact Hc |].
  split; [intros Habsent; specialize (Habsent _ Hc); discriminate |].
  reflexivity.
Qed.

Lemma C2_witness :
  exists s,
    Publisher.run readPublishRead
                  (Publisher.initial "" [] 3600000000000 (start noCredentials))
    = Some s
    /\ Publisher.collects s 0%nat
       = Publisher.CollectReturned
           (metrics (fst (New "" [] 3600000000000 (start noCredentials))))
    /\ (exists newer,
           Publisher.collects s 1%nat = Publisher.CollectReturned newer
           /\ Publisher.published s
              = [newer;
                 metrics (fst (New "" [] 3600000000000 (start noCredentials)))])
    /\ Forall (Publisher.complete "" [] 3600000000000) (Publisher.published s)
    /\ In (metrics (Publisher.collector s)) (Publisher.published s)
    /\ forall i,
        match Publisher.collects s i with
        | Publisher.CollectReturned sent =>
            In sent (Publisher.published s)
            /\ Publisher.complete "" [] 3600000000000 sent
        | Publisher.CollectRanging rest sent =>
            sent ++ rest = metrics (Publisher.collector s)
            /\ Publisher.mutex s = Some (Publisher.CollectGoroutine i)
            /\ Publisher.scrapeHolds (Publisher.scraper s) = false
        | Publisher.CollectStart | Publisher.CollectLocked => True
        end.
Proof.
  eexists. split; [vm_compute; reflexivity |].
  split; [reflexivity |].
  split; [eexists; split; reflexivity |].
  apply (C2_collect_reads_one_snapshot
           "" [] 3600000000000 (start noCredentials)).
  apply (run_reachable readPublishRead _ _ _
                       (Publisher.reachable_start _)).
  vm_compute; reflexivity.
Defined.

(** * The rest of the collector in the example world *)

(** A world in which every bundle location answers with an error page:
    the GET succeeds and the body holds no PEM block. *)
Module ErrorPage.

Definition page : list Byte.byte := [Byte.x3c; Byte.x3f; Byte.x78].

#[export] Instance outside : Outside := {|
  World := Scenario;
  time_Now := fun w => ({| sec := ticks w; nsec := 0 |}, tick w);
  time_Since := fun t w => ((ticks w - sec t) * 1000000000, tick w);
  Config := string;
  config_LoadDefaultConfig := fun opts w =>
    (match configError w with
     | Some err => Err err
     | None =>
         Ok (match opts with WithRegion r :: _ => r | [] => "eu-west-1" end)
     end, tick w);
  Client := string;
  NewFromConfig := fun cfg => cfg;
  DescribeTrustStores := fun _ input w =>
    (match describeError w with
     | Some err => Err err
     | None => Ok {| TrustStores := describe input |}
     end, tick w);
  GetTrustStoreCaCertificatesBundle := fun _ arn w =>
    (Ok ("https://bundles/" ++ arn)%string, tick w);
  Response := list Byte.byte;
  http_Get := fun _ w => (Ok page, tick w);
  ioutil_ReadAll := fun resp w => (Ok resp, tick w);
  Body_Close := fun _ w => tick w |}.

Definition start (w : Scenario) : @State outside :=
  @Build_State outside w [].

End ErrorPage.


(** A cycle over trust store b alone, after a snapshot that held the
    samples of all four. *)
Lemma X2_witness :
  let c := exporter "" ["arn:b"] in
  let earlier := metrics (fst (scrape (exporter "" []) (start healthy))) in
  scrape (set_metrics c earlier) (start healthy) = scrape c (start healthy)
  /\ scrapeInterval (fst (scrape c (start healthy))) = scrapeInterval c
  /\ region (fst (scrape c (start healthy))) = region c
  /\ trustStoreARNs (fst (scrape c (start healthy))) = trustStoreARNs c.
Proof.
  exact (X2_scrape_replaces_the_snapshot
           (exporter "" ["arn:b"])
           (metrics (fst (scrape (exporter "" []) (start healthy))))
           (start healthy)).
Defined.

Lemma X3_witness :
  let c := exporter "" ["arn:b"] in
  backgroundScrape c 3600000000000 0 (start healthy) = (Some c, start healthy)
  /\ backgroundScrape c 3600000000000 3 (start healthy)
     = (Some (fst (scrape c (snd (tickerLoop 2 c (start healthy))))),
        snd (scrape c (snd (tickerLoop 2 c (start healthy)))))
  /\ snd (tickerLoop 2 c (start healthy))
     = snd (backgroundScrape c 3600000000000 2 (start healthy)).
Proof.
  exact (X3_one_cycle_per_tick (exporter "" ["arn:b"]) 3600000000000 2
                               (start healthy) eq_refl).
Defined.

(** Trust store a, whose bundle-location call fails, and trust store c,
    whose bundle is read and then found to hold an Ed25519 key. *)
Lemma X8_witness :
  collectTrustStoreMetrics (exporter "" []) "eu-west-1" storeA []
                           (start healthy)
  = (([] ++ trustStoreMetrics (exporter "" []) storeA, Some "AccessDenied"),
     {| world := tick healthy; logged := [] |})
  /\ world (snd (collectTrustStoreMetrics (exporter "" []) "eu-west-1" storeC
                                          [] (start healthy)))
     = tick (tick (tick (tick healthy)))
  /\ snd (fst (collectTrustStoreMetrics (exporter "" []) "eu-west-1" storeC
                                        [] (start healthy)))
     = Some "unknown public key type".
Proof.
  split; [| split; [| reflexivity]].
  - exact (X8_external_calls_of_a_trust_store
             (exporter "" []) "eu-west-1" storeA [] (start healthy)).
  - exact (proj1 (X8_external_calls_of_a_trust_store
                    (exporter "" []) "eu-west-1" storeC [] (start healthy))).
Defined.

Lemma X9_witness :
  snd (scrape (exporter "" []) (start noCredentials))
  = {| world := tick (tick (tick noCredentials));
       logged := ["Scraping metrics";
                  "Error creating AWS config: no credentials"] |}
  /\ snd (scrape (exporter "" []) (start accessDenied))
     = {| world := tick (tick (tick (tick accessDenied)));
          logged := ["Scraping metrics";
                     "Error describing trust stores: AccessDenied"] |}.
Proof.
  split.
  - exact (proj1 (X9_no_call_after_failed_enumeration
                    (exporter "" []) (start noCredentials))
                 "no credentials" (tick (tick noCredentials)) eq_refl).
  - exact (proj2 (X9_no_call_after_failed_enumeration
                    (exporter "" []) (start accessDenied))
                 "eu-west-1" (tick (tick accessDenied))
                 "AccessDenied" (tick (tick (tick accessDenied)))
                 eq_refl eq_refl).
Defined.

(** Every bundle location answers with an error page: the trust store
    is collected without error and without certificates, and the cycle
    reports success. *)
Lemma X10_witness :
  collectTrustStoreMetrics (Out := ErrorPage.outside)
                           (exporter "" []) "eu-west-1" storeA []
                           (ErrorPage.start healthy)
  = (([] ++ trustStoreMetrics (exporter "" []) storeA, None),
     @Build_State ErrorPage.outside (tick (tick (tick (tick healthy)))) [])
  /\ successValue
       (metrics (fst (scrape (Out := ErrorPage.outside)
                             (exporter "" []) (ErrorPage.start healthy))))
     = [Float64OfInt 1].
Proof.
  split; [| reflexivity].
  apply (X10_bundle_without_blocks (Out := ErrorPage.outside)
           (exporter "" []) "eu-west-1" storeA [] (ErrorPage.start healthy)
           ErrorPage.page (tick (tick (tick (tick healthy)))) eq_refl).
  right. reflexivity.
Defined.

Lemma X11_witness :
  let snapshot := metrics (fst (scrape (exporter "" []) (start healthy))) in
  exists certs,
    filter (fun m => certificateLevel (desc m)) snapshot = factsOf certs
    /\ Forall (fun '(ts, cert, k) =>
                 enumerated (exporter "" []) (start healthy) ts
                 /\ keyLength (PublicKey_ cert) = Ok k)
              certs
    /\ countOf certificateInfo snapshot = List.length certs
    /\ countOf certificateNotBefore snapshot = List.length certs
    /\ countOf certificateExpiry snapshot = List.length certs.
Proof.
  exact (X11_certificate_samples_in_triples (exporter "" []) (start healthy)).
Defined.

Lemma X12_witness :
  filter (fun m => trustStoreLevel (desc m))
         (metrics (fst (scrape (exporter "" []) (start healthy))))
  = flat_map (trustStoreMetrics (exporter "" []))
             [storeA; storeB; storeC; storeD].
Proof.
  exact (X12_trust_store_samples (exporter "" []) (start healthy)).
Defined.

Lemma X13_witness :
  In "Error collecting metrics for trust store arn:c: unknown public key type"
     (logged (snd (scrape (exporter "" []) (start healthy)))).
Proof.
  exact (proj2 (X13_failures_are_logged (exporter "" []) (start healthy))
               "eu-west-1" [storeA; storeB] storeC [storeD]
               (snd (enumeration (exporter "" []) (start healthy)))
               "unknown public key type" eq_refl eq_refl).
Defined.

Lemma X4_witness :
  let s := Publisher.initial "" [] 3600000000000 (start noCredentials) in
  Publisher.run (repeat Publisher.ScrapeGoroutine 8) s
  = Some {| Publisher.outside :=
              snd (scrape (Publisher.collector s) (Publisher.outside s));
            Publisher.collector :=
              fst (scrape (Publisher.collector s) (Publisher.outside s));
            Publisher.mutex := None;
            Publisher.scraper := Publisher.ScrapeIdle;
            Publisher.collects := Publisher.collects s;
            Publisher.published :=
              metrics (fst (scrape (Publisher.collector s)
                                   (Publisher.outside s)))
              :: Publisher.published s |}.
Proof.
  exact (proj1 (X4_scrape_goroutine_runs_scrape
                  (Publisher.initial "" [] 3600000000000 (start noCredentials))
                  eq_refl) eq_refl).
Defined.

(** The first [Collect] after [New], in a world without credentials:
    it sends the four exporter samples of the first cycle. *)
Lemma X5_witness :
  let s := Publisher.initial "" [] 3600000000000 (start noCredentials) in
  exists s',
    Publisher.run (repeat (Publisher.CollectGoroutine 0)
                          (List.length (metrics (Publisher.collector s)) + 3)) s
    = Some s'
    /\ Publisher.collects s' 0%nat
       = Publisher.CollectReturned (metrics (Publisher.collector s))
    /\ (forall j, j <> 0%nat ->
                  Publisher.collects s' j = Publisher.collects s j)
    /\ Publisher.mutex s' = None
    /\ Publisher.collector s' = Publisher.collector s
    /\ Publisher.outside s' = Publisher.outside s
    /\ Publisher.published s' = Publisher.published s
    /\ Publisher.scraper s' = Publisher.scraper s.
Proof.
  exact (proj1 (X5_collect_sends_the_snapshot
                  0 (Publisher.initial "" [] 3600000000000
                                       (start noCredentials))
                  eq_refl) eq_refl).
Defined.

(** A [Collect] in its loop while a cycle has collected and waits for
    the mutex. *)
Definition readWhileCollected : list Publisher.Goroutine :=
  [Publisher.CollectGoroutine 0; Publisher.CollectGoroutine 0;
   Publisher.ScrapeGoroutine; Publisher.CollectGoroutine 0].


Lemma X6_witness :
  exists s,
    Publisher.run readWhileCollected
                  (Publisher.initial "" [] 3600000000000 (start noCredentials))
    = Some s
    /\ Publisher.collectHolds (Publisher.collects s 0%nat) = true
    /\ Publisher.scrapeHolds (Publisher.scraper s) = false
    /\ Publisher.perform Publisher.ScrapeGoroutine s = None
    /\ (forall i j,
           Publisher.collectHolds (Publisher.collects s i) = true ->
           Publisher.collectHolds (Publisher.collects s j) = true -> i = j).
Proof.
  eexists. split; [vm_compute; reflexivity |].
  split; [reflexivity |]. split; [reflexivity |]. split; [reflexivity |].
  apply (X6_mutual_exclusion "" [] 3600000000000 (start noCredentials)).
  apply (run_reachable readWhileCollected _ _ _
                       (Publisher.reachable_start _)).
  vm_compute; reflexivity.
Defined.


(** A bundle that holds the same RSA certificate twice: two equal
    triples of samples. *)
Lemma X14_witness :
  certificateLoop storeB [Byte.x01; Byte.x01; Byte.x01; Byte.x01] []
                  (start healthy)
  = (([] ++ flat_map (fun '(cert, k) => certificateMetrics storeB cert k)
                     [(rsaCertificate, 2048); (rsaCertificate, 2048)],
      None), start healthy)
  /\ countOf certificateInfo
             (flat_map (fun '(cert, k) => certificateMetrics storeB cert k)
                       [(rsaCertificate, 2048); (rsaCertificate, 2048)])
     = List.length (pemBlocks [Byte.x01; Byte.x01; Byte.x01; Byte.x01]).
Proof.
  apply (X14_one_fact_per_certificate
           storeB [Byte.x01; Byte.x01; Byte.x01; Byte.x01] [] (start healthy)
           [(rsaCertificate, 2048); (rsaCertificate, 2048)]).
  assert (Hblocks : pemBlocks [Byte.x01; Byte.x01; Byte.x01; Byte.x01]
                    = [{| Type_ := "CERTIFICATE"; Bytes := [Byte.x01] |};
                       {| Type_ := "CERTIFICATE"; Bytes := [Byte.x01] |}])
    by reflexivity.
  rewrite Hblocks. repeat constructor.
Defined.

(** An ARN filter that matches no trust store of the account. *)
Lemma X15_witness :
  let c := exporter "" ["arn:z"] in
  metrics (fst (scrape c (start healthy)))
  = exporterMetrics c (fst (scrapeCollect c (start healthy)))
  /\ successValue (metrics (fst (scrape c (start healthy))))
     = [Float64OfInt 1]
  /\ snd (scrape c (start healthy))
     = {| world := tick (tick (tick (tick healthy)));
          logged := ["Scraping metrics"; "Found 0 trust stores"] |}.
Proof.
  exact (X15_no_trust_store
           (exporter "" ["arn:z"]) (start healthy) "eu-west-1"
           (snd (enumeration (exporter "" ["arn:z"]) (start healthy)))
           eq_refl).
Defined.
